(** * Resumable frames of the HHVM runtime (hphp/runtime/vm/resumable.h)

    A shallow embedding of [struct Resumable]: the layout of the frame
    block, [Resumable::Create], [Resumable::Destroy] and the accessors,
    over a byte-addressed little-endian memory (x86-64), with the calls
    to the memory manager, to the payload destructor and to
    [VarEnv::suspend] recorded in a log. *)

From Stdlib Require Import ZArith List Lia Bool.
From Stdlib Require Import Strings.Byte.
Import ListNotations.
Local Open Scope Z_scope.

(** ** Machine integers *)

Module Int.

(** The value of an unsigned [w]-bit integer holding [x]. *)
Definition wrap (w x : Z) : Z := x mod 2 ^ w.

(** The value of a signed [w]-bit integer with the bit pattern of [x]. *)
Definition sext (w x : Z) : Z :=
  let u := wrap w x in
  if u <? 2 ^ (w - 1) then u else u - 2 ^ w.

(** [size_t], [uintptr_t], [uint64_t]. *)
Definition u64 (x : Z) : Z := wrap 64 x.
Definition u32 (x : Z) : Z := wrap 32 x.
(** [int32_t], which is also [Offset]. *)
Definition i32 (x : Z) : Z := sext 32 x.

Definition is_u64 (x : Z) : Prop := 0 <= x < 2 ^ 64.
Definition is_i32 (x : Z) : Prop := - 2 ^ 31 <= x < 2 ^ 31.

End Int.

(** ** Byte-addressed memory *)

Definition addr := Z.
Definition mem := addr -> byte.

Definition Z_of_byte (b : byte) : Z := Z.of_N (Byte.to_N b).

Definition byte_of_Z (z : Z) : byte :=
  match Byte.of_N (Z.to_N (z mod 256)) with
  | Some b => b
  | None => x00
  end.

(** Writing one byte. *)
Definition poke (m : mem) (a : addr) (b : byte) : mem :=
  fun x => if x =? a then b else m x.

(** Little-endian load and store of [n] bytes. *)
Fixpoint load (n : nat) (m : mem) (a : addr) : Z :=
  match n with
  | O => 0
  | S k => Z_of_byte (m a) + 256 * load k m (a + 1)
  end.

Fixpoint store (n : nat) (m : mem) (a : addr) (v : Z) : mem :=
  match n with
  | O => m
  | S k => store k (poke m a (byte_of_Z v)) (a + 1) (v / 256)
  end.

(** Ascending copy of [n] bytes from [src] to [dst]. *)
Fixpoint copy (n : nat) (m : mem) (dst src : addr) : mem :=
  match n with
  | O => m
  | S k => copy k (poke m dst (m src)) (dst + 1) (src + 1)
  end.

(** ** Layout

    [resumable.h] uses [sizeof] and [offsetof] of [ResumableNode],
    [TypedValue] and [ActRec], which are declared in headers that are not
    part of this development; their layout is a parameter. *)

Class Layout := {
  (** [struct ResumableNode]: the [framesize] field and the [hdr.kind] byte. *)
  sizeof_ResumableNode : Z;
  offsetof_framesize : Z;
  width_framesize : nat;
  offsetof_hdr_kind : Z;
  HeaderKind_ResumableFrame : Z;
  (** [TypedValue], one local or iterator slot. *)
  sizeof_TypedValue : Z;
  (** [struct ActRec]. *)
  sizeof_ActRec : Z;
  alignof_ActRec : Z;
  offsetof_m_sfp : Z;
  offsetof_m_savedRip : Z;
  offsetof_m_func : Z;
  offsetof_m_numArgsAndFlags : Z;
  kResumedShift : Z;
  offsetof_m_varEnv : Z;
  (** The [AttrMayUseVV] bit of [Func::attrs()]. *)
  AttrMayUseVV : Z
}.

(** Rounding [x] up to a multiple of [a], as the compiler places a field. *)
Definition align_up (x a : Z) : Z := x + (- x) mod a.

(** Offsets of the fields of a struct whose members have the given
    (size, alignment) pairs, placed from offset [cur] on. *)
Fixpoint field_offsets (cur : Z) (fields : list (Z * Z)) : list Z :=
  match fields with
  | [] => []
  | (sz, al) :: rest =>
      let o := align_up cur al in o :: field_offsets (o + sz) rest
  end.

Section ResumableLayout.

Context {L : Layout}.

(** [struct Resumable { ActRec m_actRec; jit::TCA m_resumeAddr;
    union { struct { Offset m_resumeOffset; int32_t m_size; };
            uint64_t m_offsetAndSize; }; } __attribute__((__aligned__(16)))]. *)
Definition Resumable_fields : list (Z * Z) :=
  [ (sizeof_ActRec, alignof_ActRec); (8, 8); (8, 8) ].

Definition Resumable_offsets : list Z := field_offsets 0 Resumable_fields.

Definition arOff : Z := nth 0 Resumable_offsets 0.
Definition resumeAddrOff : Z := nth 1 Resumable_offsets 0.
Definition resumeOffsetOff : Z := nth 2 Resumable_offsets 0.
(** [m_size] is the second 32-bit half of the union. *)
Definition sizeOff : Z := resumeOffsetOff + 4.

Definition sizeof_Resumable : Z :=
  align_up (resumeOffsetOff + 8) (Z.max 16 (Z.max alignof_ActRec 8)).

Definition dataOff : Z := sizeof_Resumable.

(** The layouts the code is compiled for. *)
Record layout_ok : Prop := {
  lo_node_size : 0 <= sizeof_ResumableNode < 2 ^ 32;
  lo_framesize : 0 <= offsetof_framesize /\
                 offsetof_framesize + Z.of_nat width_framesize
                   <= sizeof_ResumableNode;
  lo_kind : 0 <= offsetof_hdr_kind < sizeof_ResumableNode;
  lo_slot : 0 < sizeof_TypedValue < 2 ^ 32;
  lo_ar_align : 0 < alignof_ActRec <= 16;
  lo_ar_size : 0 < sizeof_ActRec < 2 ^ 32;
  lo_sfp : 0 <= offsetof_m_sfp /\ offsetof_m_sfp + 8 <= offsetof_m_func;
  lo_savedRip : 0 <= offsetof_m_savedRip /\
                offsetof_m_savedRip + 8 <= offsetof_m_func;
  lo_func : offsetof_m_func + 8 <= offsetof_m_numArgsAndFlags;
  lo_flags : offsetof_m_numArgsAndFlags + 4 <= sizeof_ActRec;
  lo_shift : 0 <= kResumedShift < 32;
  lo_varEnv : offsetof_m_func + 8 <= offsetof_m_varEnv /\
              offsetof_m_varEnv + 8 <= sizeof_ActRec /\
              (offsetof_m_varEnv + 8 <= offsetof_m_numArgsAndFlags \/
               offsetof_m_numArgsAndFlags + 4 <= offsetof_m_varEnv)
}.

End ResumableLayout.

(** ** Functions *)

(** Modelled from the spec: [Func] is declared in hphp/runtime/vm/func.h,
    which is not part of this development.  Of a function the code reads
    whether it is resumable, its attributes, and whether a bytecode offset
    lies within its bounds (the spec's "function spanning bytecode
    0-100"). *)
Record Func := {
  base : Z;
  past : Z;
  isResumable : bool;
  attrs : Z
}.

(** Modelled from the spec: [Func::contains], "the offset is within the
    owning function's bytecode bounds", from [base] up to [past]. *)
Definition contains (f : Func) (offset : Z) : bool :=
  (base f <=? offset) && (offset <? past f).

(** Bytecode offsets are not negative and fit an [Offset]. *)
Definition func_ok (f : Func) : Prop := 0 <= base f /\ past f <= 2 ^ 31.

(** ** Machine state *)

(** Calls that leave the unit: the memory manager, the destructor of the
    trailing object, and the variable environment. *)
Inductive event :=
| EvMalloc (size : Z) (p : addr)
| EvFree (p : addr) (size : Z)
| EvDtor (obj : addr)
| EvSuspend (varEnv fp actRec : addr).

Record state := {
  st_mem : mem;
  st_log : list event
}.

(** The surroundings of the unit: the [Func] objects of the program by
    address, and the memory manager's choice of a block for a request,
    given the calls made so far ([None]: out of memory).  The pointer it
    returns is a 64-bit address. *)
Class Env := {
  funcs : addr -> option Func;
  objMalloc_pick : list event -> Z -> option addr;
  objMalloc_ptr : forall log size p,
    objMalloc_pick log size = Some p -> Int.is_u64 p
}.

Inductive assertion :=
| A_fp
| A_resumed_eq_clone
| A_func
| A_isResumable
| A_contains
| A_mayUseVV.

Inductive fault :=
| AssertionFailed (a : assertion)
| OutOfMemory
| BadFuncPointer.

Inductive outcome (A : Type) :=
| Done (a : A) (s : state)
| Abort (f : fault).

Arguments Done {A} a s.
Arguments Abort {A} f.

Definition M (A : Type) : Type := state -> outcome A.

Definition ret {A} (a : A) : M A := fun s => Done a s.

Definition bind {A B} (c : M A) (k : A -> M B) : M B :=
  fun s => match c s with
           | Done a s' => k a s'
           | Abort f => Abort f
           end.

Definition fail {A} (f : fault) : M A := fun _ => Abort f.

(** [assert(c)], as in a build that has assertions enabled: a false
    condition aborts the program. *)
Definition assert (a : assertion) (c : bool) : M unit :=
  if c then ret tt else fail (AssertionFailed a).

Definition read (n : nat) (a : addr) : M Z :=
  fun s => Done (load n (st_mem s) a) s.

Definition write (n : nat) (a : addr) (v : Z) : M unit :=
  fun s => Done tt {| st_mem := store n (st_mem s) a v; st_log := st_log s |}.

Definition emit (e : event) : M unit :=
  fun s => Done tt {| st_mem := st_mem s; st_log := st_log s ++ [e] |}.

Declare Scope monad_scope.
Delimit Scope monad_scope with monad.
Notation "x <- c ;; k" := (bind c (fun x => k))
  (at level 61, c at next level, right associativity) : monad_scope.
Notation "c ;; k" := (bind c (fun _ => k))
  (at level 61, right associativity) : monad_scope.
Local Open Scope monad_scope.

Section Operations.

Context {L : Layout} {E : Env}.

(** *** The memory manager, [MM()]

    [MemoryManager] is not part of this development: which block it
    hands out is the parameter [objMalloc_pick], and its two calls are
    recorded in the log. *)

Definition MM_objMalloc (size : Z) : M addr :=
  fun s => match objMalloc_pick (st_log s) size with
           | Some p =>
               Done p {| st_mem := st_mem s;
                         st_log := st_log s ++ [EvMalloc size p] |}
           | None => Abort OutOfMemory
           end.

Definition MM_objFree (p : addr) (size : Z) : M unit :=
  emit (EvFree p size).

(** Modelled from the spec: [wordcpy] is defined in a header that is not
    part of this development; it "copies verbatim" [n] bytes from [src]
    to [dst], in ascending order. *)
Definition wordcpy (dst src : addr) (n : Z) : M unit :=
  fun s => Done tt {| st_mem := copy (Z.to_nat n) (st_mem s) dst src;
                      st_log := st_log s |}.

(** *** [ActRec]

    The methods of [ActRec] are defined in hphp/runtime/vm/bytecode.h,
    which is not part of this development. *)

(** Modelled from the spec: [ActRec::func()], the "function identity"
    held in [m_func]. *)
Definition ActRec_func (ar : addr) : M addr :=
  read 8 (ar + offsetof_m_func).

(** Modelled from the spec: [ActRec::resumed()], the "suspended" bit of
    the flag word [m_numArgsAndFlags]. *)
Definition ActRec_resumed (ar : addr) : M bool :=
  v <- read 4 (ar + offsetof_m_numArgsAndFlags) ;;
  ret (Z.testbit v kResumedShift).

(** Modelled from the spec: [ActRec::setResumed()] "sets the suspended
    flag" of the record. *)
Definition ActRec_setResumed (ar : addr) : M unit :=
  v <- read 4 (ar + offsetof_m_numArgsAndFlags) ;;
  write 4 (ar + offsetof_m_numArgsAndFlags) (Z.lor v (Z.shiftl 1 kResumedShift)).

(** Modelled from the spec: [ActRec::hasVarEnv()], "that fallback is
    present": [m_varEnv] is not null. *)
Definition ActRec_hasVarEnv (ar : addr) : M bool :=
  v <- read 8 (ar + offsetof_m_varEnv) ;;
  ret (negb (v =? 0)).

(** Modelled from the spec: [ActRec::getVarEnv()], the fallback store of
    the frame. *)
Definition ActRec_getVarEnv (ar : addr) : M addr :=
  read 8 (ar + offsetof_m_varEnv).

(** Following a [const Func*]. *)
Definition Func_deref (p : addr) : M Func :=
  match funcs p with
  | Some f => ret f
  | None => fail BadFuncPointer
  end.

Definition Func_mayUseVV (f : Func) : bool :=
  negb (Z.land (attrs f) AttrMayUseVV =? 0).

(** Modelled from the spec: [VarEnv::suspend] belongs to the variable
    environment, which is not part of this development; the unit only
    issues the call, with the caller frame and the new record. *)
Definition VarEnv_suspend (varEnv fp actRec : addr) : M unit :=
  emit (EvSuspend varEnv fp actRec).

(** *** [Resumable::Create<clone, objSize, mayUseVV>] *)

Definition frameSize_of (numSlots : Z) : Z :=
  Int.u64 (numSlots * sizeof_TypedValue).

Definition totalSize_of (objSize numSlots : Z) : Z :=
  Int.u64 (Int.u64 (Int.u64 (sizeof_ResumableNode + frameSize_of numSlots)
                    + sizeof_Resumable)
           + objSize).

(** [totalSize << 32 | resumeOffset], computed in [size_t]: the [Offset]
    is converted to 64 bits first. *)
Definition pack_offsetAndSize (totalSize resumeOffset : Z) : Z :=
  Z.lor (Int.u64 (Z.shiftl totalSize 32)) (Int.u64 resumeOffset).

Definition Create (clone : bool) (objSize : Z) (mayUseVV : bool)
    (fp : addr) (numSlots : Z) (resumeAddr : Z) (resumeOffset : Z) : M addr :=
  assert A_fp (negb (fp =? 0)) ;;
  r <- ActRec_resumed fp ;;
  assert A_resumed_eq_clone (Bool.eqb r clone) ;;
  func <- ActRec_func fp ;;
  assert A_func (negb (func =? 0)) ;;
  f <- Func_deref func ;;
  assert A_isResumable (isResumable f) ;;
  assert A_contains (contains f resumeOffset) ;;
  (* Allocate memory. *)
  let frameSize := frameSize_of numSlots in
  let totalSize := totalSize_of objSize numSlots in
  node <- MM_objMalloc totalSize ;;
  let frame := node + sizeof_ResumableNode in
  let resumable := frame + frameSize in
  let actRec := resumable + arOff in
  write width_framesize (node + offsetof_framesize) frameSize ;;
  write 1 (node + offsetof_hdr_kind) HeaderKind_ResumableFrame ;;
  (if negb clone then
     (* Copy ActRec, locals and iterators *)
     let src := Int.u64 (fp - frameSize) in
     wordcpy frame src (Int.u64 (frameSize + sizeof_ActRec)) ;;
     (* Set resumed flag. *)
     ActRec_setResumed actRec ;;
     (* Suspend VarEnv if needed *)
     assert A_mayUseVV (mayUseVV || negb (Func_mayUseVV f)) ;;
     hasVV <- (if mayUseVV && Func_mayUseVV f
               then ActRec_hasVarEnv fp else ret false) ;;
     if hasVV
     then (ve <- ActRec_getVarEnv fp ;; VarEnv_suspend ve fp actRec)
     else ret tt
   else
     (* only copy the ActRec, from m_func on *)
     let offset := offsetof_m_func in
     wordcpy (actRec + offset) (fp + offset) (Int.u64 (sizeof_ActRec - offset))) ;;
  (* Populate Resumable. *)
  write 8 (resumable + resumeAddrOff) resumeAddr ;;
  write 8 (resumable + resumeOffsetOff)
        (pack_offsetAndSize totalSize resumeOffset) ;;
  (* Return pointer to the inline-allocated object. *)
  ret (resumable + sizeof_Resumable).

(** *** [Resumable::Destroy<T>]

    The trailing object's type [T]: its size and what its destructor does
    to memory. *)
Record ObjType := {
  sizeof_T : Z;
  dtor_T : addr -> mem -> mem
}.

Definition run_dtor (T : ObjType) (obj : addr) : M unit :=
  fun s => Done tt {| st_mem := dtor_T T obj (st_mem s);
                      st_log := st_log s ++ [EvDtor obj] |}.

(** [reinterpret_cast<char*>(obj + 1) - size] is 64-bit pointer
    arithmetic: a [size] above the address wraps around. *)
Definition Destroy (T : ObjType) (size : Z) (obj : addr) : M unit :=
  let base := Int.u64 ((obj + sizeof_T T) - size) in
  run_dtor T obj ;;
  MM_objFree base size.

(** *** Accessors; [this] is the [Resumable*] *)

Definition actRec (this : addr) : addr := this + arOff.

Definition resumeAddr (this : addr) : M Z :=
  read 8 (this + resumeAddrOff).

Definition m_resumeOffset (this : addr) : M Z :=
  v <- read 4 (this + resumeOffsetOff) ;; ret (Int.i32 v).

Definition m_size (this : addr) : M Z :=
  v <- read 4 (this + sizeOff) ;; ret (Int.i32 v).

Definition resumeOffset (this : addr) : M Z :=
  func <- ActRec_func (actRec this) ;;
  f <- Func_deref func ;;
  o <- m_resumeOffset this ;;
  assert A_contains (contains f o) ;;
  ret o.

(** [size_t size() const { return m_size; }] *)
Definition size (this : addr) : M Z :=
  v <- m_size this ;; ret (Int.u64 v).

Definition setResumeAddr (this : addr) (resumeAddr resumeOffset : Z) : M unit :=
  func <- ActRec_func (actRec this) ;;
  f <- Func_deref func ;;
  assert A_contains (contains f resumeOffset) ;;
  write 8 (this + resumeAddrOff) resumeAddr ;;
  write 4 (this + resumeOffsetOff) resumeOffset.

(** Modelled from the spec: [Resumable::FromObj] is declared in
    resumable.h and defined elsewhere; the header precedes the trailing
    object, whose address is the handle [Create] returns. *)
Definition FromObj (obj : addr) : addr := obj - sizeof_Resumable.

(** Modelled from the spec: the callers of [Destroy] are not part of
    this development; destruction replays "the size stored in the header
    at creation time". *)
Definition destroy (T : ObjType) (obj : addr) : M unit :=
  sz <- size (FromObj obj) ;;
  Destroy T sz obj.

End Operations.
(** ** What a successful [Create] leaves behind

    The memory and the log after each phase of [Create], as functions of
    the memory before; [Create_run] below shows that [Create] computes
    exactly these. *)

Section CreateEffect.

Context {L : Layout} {E : Env}.

Definition mem_node (m : mem) (node frameSize : Z) : mem :=
  store 1
    (store width_framesize m (node + offsetof_framesize) frameSize)
    (node + offsetof_hdr_kind) HeaderKind_ResumableFrame.

Definition mem_copied (clone : bool) (m : mem) (fp node frameSize : Z) : mem :=
  let frame := node + sizeof_ResumableNode in
  let ar := frame + frameSize + arOff in
  let m1 := mem_node m node frameSize in
  if clone then
    copy (Z.to_nat (Int.u64 (sizeof_ActRec - offsetof_m_func))) m1
         (ar + offsetof_m_func) (fp + offsetof_m_func)
  else
    let m2 := copy (Z.to_nat (Int.u64 (frameSize + sizeof_ActRec))) m1
                   frame (Int.u64 (fp - frameSize)) in
    store 4 m2 (ar + offsetof_m_numArgsAndFlags)
      (Z.lor (load 4 m2 (ar + offsetof_m_numArgsAndFlags))
             (Z.shiftl 1 kResumedShift)).

(** Whether the non-clone path hands the variable environment over. *)
Definition hands_off (clone mayUseVV : bool) (f : Func) (m : mem)
    (fp node frameSize : Z) : bool :=
  negb clone && (mayUseVV && Func_mayUseVV f) &&
  negb (load 8 (mem_copied clone m fp node frameSize)
               (fp + offsetof_m_varEnv) =? 0).

Definition mem_created (clone : bool) (m : mem)
    (fp node frameSize totalSize resumeAddr resumeOffset : Z) : mem :=
  let resumable := node + sizeof_ResumableNode + frameSize in
  store 8
    (store 8 (mem_copied clone m fp node frameSize)
           (resumable + resumeAddrOff) resumeAddr)
    (resumable + resumeOffsetOff) (pack_offsetAndSize totalSize resumeOffset).

Definition log_created (clone mayUseVV : bool) (f : Func) (s : state)
    (fp node frameSize totalSize : Z) : list event :=
  let m := mem_copied clone (st_mem s) fp node frameSize in
  let ar := node + sizeof_ResumableNode + frameSize + arOff in
  st_log s ++ EvMalloc totalSize node ::
    (if hands_off clone mayUseVV f (st_mem s) fp node frameSize
     then [EvSuspend (load 8 m (fp + offsetof_m_varEnv)) fp ar]
     else []).

(** The checks [Create] makes before it touches memory. *)
Record Create_checks (clone mayUseVV : bool) (fp resumeOffset : Z)
    (s : state) (f : Func) : Prop := {
  ck_fp : fp <> 0;
  ck_resumed :
    Z.testbit (load 4 (st_mem s) (fp + offsetof_m_numArgsAndFlags))
              kResumedShift = clone;
  ck_func_ptr : load 8 (st_mem s) (fp + offsetof_m_func) <> 0;
  ck_func : funcs (load 8 (st_mem s) (fp + offsetof_m_func)) = Some f;
  ck_isResumable : isResumable f = true;
  ck_contains : contains f resumeOffset = true;
  ck_mayUseVV : clone = false -> mayUseVV || negb (Func_mayUseVV f) = true
}.

(** The sizes are [size_t] values whose sum is one too, and the block the
    memory manager returned lies apart from the caller's frame. *)
Record Create_sizes (objSize numSlots : Z) : Prop := {
  sz_slots : 0 <= numSlots;
  sz_obj : 0 <= objSize;
  sz_fits : sizeof_ResumableNode + numSlots * sizeof_TypedValue
            + sizeof_Resumable + objSize < 2 ^ 64
}.

Record Create_fresh (fp node numSlots totalSize : Z) : Prop := {
  fr_node : 0 <= node;
  fr_src : numSlots * sizeof_TypedValue <= fp < 2 ^ 64;
  fr_apart : node + totalSize <= fp - numSlots * sizeof_TypedValue \/
             fp + sizeof_ActRec <= node
}.

(** The part of [struct Resumable] after its [ActRec]. *)
Definition sizeof_RestOfResumable : Z := sizeof_Resumable - sizeof_ActRec.

End CreateEffect.

(** The state a successful [setResumeAddr] leaves behind. *)
Definition redirected `{Layout} (this : addr) (s : state) (a o : Z) : state :=
  {| st_mem := store 4 (store 8 (st_mem s) (this + resumeAddrOff) a)
                     (this + resumeOffsetOff) o;
     st_log := st_log s |}.

(** The hand-offs to the variable environment in a log. *)
Fixpoint count_suspend (l : list event) : nat :=
  match l with
  | [] => O
  | EvSuspend _ _ _ :: r => S (count_suspend r)
  | _ :: r => count_suspend r
  end.

(** ** A concrete machine

    A layout with 16-byte slots and a 48-byte activation record, one
    resumable function spanning bytecode 0-100, and a caller frame with
    three local slots at address 28672. *)

Definition example_layout : Layout := {|
  sizeof_ResumableNode := 16;
  offsetof_framesize := 0;
  width_framesize := 4;
  offsetof_hdr_kind := 11;
  HeaderKind_ResumableFrame := 2;
  sizeof_TypedValue := 16;
  sizeof_ActRec := 48;
  alignof_ActRec := 8;
  offsetof_m_sfp := 0;
  offsetof_m_savedRip := 8;
  offsetof_m_func := 16;
  offsetof_m_numArgsAndFlags := 28;
  kResumedShift := 30;
  offsetof_m_varEnv := 40;
  AttrMayUseVV := 2 ^ 27
|}.

Definition example_func : Func :=
  {| base := 0; past := 100; isResumable := true; attrs := 2 ^ 27 |}.

Definition example_env : Env.
Proof.
  refine {|
    funcs := fun p => if p =? 20480 then Some example_func else None;
    objMalloc_pick := fun _ size =>
      if size <? 2 ^ 40 then Some 1048576 else None;
    objMalloc_ptr := _
  |}.
  intros _ size p. destruct (size <? 2 ^ 40); intros H; [| discriminate H].
  injection H as <-. unfold Int.is_u64. lia.
Defined.

Definition example_fp : addr := 28672.

(** A caller's record at [fp]: [m_func], the flag word, and [m_varEnv]. *)
Definition example_mem_at (fp : addr) (resumed : bool) (varEnv : Z) : mem :=
  store 8
    (store 4
       (store 8 (fun _ => x00) (fp + 16) 20480)
       (fp + 28) (if resumed then 2 ^ 30 + 2 else 2))
    (fp + 40) varEnv.

Definition example_mem : bool -> Z -> mem := example_mem_at example_fp.

Definition example_state (resumed : bool) (varEnv : Z) : state :=
  {| st_mem := example_mem resumed varEnv; st_log := [] |}.

(** A frame high enough to have 2 GiB of locals below it. *)
Definition high_fp : addr := 2 ^ 33.

Definition high_state : state :=
  {| st_mem := example_mem_at high_fp false 0; st_log := [] |}.

(** A trailing object of 40 bytes whose destructor clears its first byte. *)
Definition example_T : ObjType :=
  {| sizeof_T := 40; dtor_T := fun obj m => poke m obj x00 |}.

(** * Properties *)

Import Int.

(** ** Machine integers *)

Lemma u64_range x : is_u64 (u64 x).
Proof. unfold is_u64, u64, wrap. apply Z.mod_pos_bound. lia. Qed.

Lemma u64_id x : is_u64 x -> u64 x = x.
Proof. unfold is_u64, u64, wrap. intros H. apply Z.mod_small. exact H. Qed.

Lemma u32_id x : 0 <= x < 2 ^ 32 -> u32 x = x.
Proof. unfold u32, wrap. intros H. apply Z.mod_small. exact H. Qed.

Lemma i32_range x : is_i32 (i32 x).
Proof.
  unfold is_i32, i32, sext, wrap.
  assert (H := Z.mod_pos_bound x (2 ^ 32) ltac:(lia)).
  change (32 - 1) with 31.
  destruct (x mod 2 ^ 32 <? 2 ^ 31) eqn:E.
  - apply Z.ltb_lt in E. lia.
  - apply Z.ltb_ge in E. lia.
Qed.

(** A signed 32-bit value survives being stored in 32 bits. *)
Lemma i32_u32 x : is_i32 x -> i32 (u32 x) = x.
Proof.
  unfold is_i32, i32, u32, sext, wrap. intros H.
  rewrite Z.mod_mod by lia. change (32 - 1) with 31.
  destruct (Z_lt_le_dec x 0) as [Hn | Hp].
  - assert (E : x mod 2 ^ 32 = x + 2 ^ 32).
    { symmetry. apply Z.mod_unique with (q := -1); lia. }
    rewrite E.
    destruct (x + 2 ^ 32 <? 2 ^ 31) eqn:C.
    + apply Z.ltb_lt in C. lia.
    + lia.
  - rewrite Z.mod_small by lia.
    destruct (x <? 2 ^ 31) eqn:C.
    + reflexivity.
    + apply Z.ltb_ge in C. lia.
Qed.

Lemma i32_mod x : i32 (x mod 2 ^ 32) = i32 x.
Proof. unfold i32, sext, wrap. rewrite Z.mod_mod by lia. reflexivity. Qed.

(** ** Memory *)

Lemma Z_of_byte_range b : 0 <= Z_of_byte b < 256.
Proof.
  unfold Z_of_byte. assert (H := Byte.to_N_bounded b). lia.
Qed.

Lemma Z_of_byte_of_Z z : Z_of_byte (byte_of_Z z) = z mod 256.
Proof.
  unfold Z_of_byte, byte_of_Z.
  assert (R := Z.mod_pos_bound z 256 ltac:(lia)).
  destruct (Byte.of_N (Z.to_N (z mod 256))) as [b |] eqn:E.
  - apply Byte.to_of_N in E. rewrite E. lia.
  - apply Byte.of_N_None_iff in E. lia.
Qed.

Lemma poke_same m a b : poke m a b a = b.
Proof. unfold poke. rewrite Z.eqb_refl. reflexivity. Qed.

Lemma poke_other m a b x : x <> a -> poke m a b x = m x.
Proof. unfold poke. intros H. apply Z.eqb_neq in H. rewrite H. reflexivity. Qed.

Lemma store_out n : forall m a v x,
  ~ (a <= x < a + Z.of_nat n) -> store n m a v x = m x.
Proof.
  induction n as [| k IH]; intros m a v x H; simpl.
  - reflexivity.
  - rewrite IH by lia. apply poke_other. lia.
Qed.

Lemma copy_out n : forall m dst src x,
  ~ (dst <= x < dst + Z.of_nat n) -> copy n m dst src x = m x.
Proof.
  induction n as [| k IH]; intros m dst src x H; simpl.
  - reflexivity.
  - rewrite IH by lia. apply poke_other. lia.
Qed.

(** A copy between disjoint ranges reproduces the source bytes. *)
Lemma copy_in n : forall m dst src i,
  (dst + Z.of_nat n <= src \/ src + Z.of_nat n <= dst) ->
  0 <= i < Z.of_nat n ->
  copy n m dst src (dst + i) = m (src + i).
Proof.
  induction n as [| k IH]; intros m dst src i D Hi; simpl.
  - lia.
  - destruct (Z.eq_dec i 0) as [-> | Hnz].
    + rewrite copy_out by lia. rewrite !Z.add_0_r. apply poke_same.
    + replace (dst + i) with (dst + 1 + (i - 1)) by lia.
      rewrite IH by lia.
      rewrite poke_other by lia. f_equal. lia.
Qed.

Lemma load_ext n : forall m1 m2 a,
  (forall x, a <= x < a + Z.of_nat n -> m1 x = m2 x) ->
  load n m1 a = load n m2 a.
Proof.
  induction n as [| k IH]; intros m1 m2 a H; simpl.
  - reflexivity.
  - rewrite (H a) by lia. rewrite (IH m1 m2 (a + 1)); [reflexivity |].
    intros x Hx. apply H. lia.
Qed.

(** Equal bytes at two places load equal values. *)
Lemma load_shift n : forall m1 m2 a b,
  (forall i, 0 <= i < Z.of_nat n -> m1 (a + i) = m2 (b + i)) ->
  load n m1 a = load n m2 b.
Proof.
  induction n as [| k IH]; intros m1 m2 a b H; simpl.
  - reflexivity.
  - assert (H0 := H 0 ltac:(lia)). rewrite !Z.add_0_r in H0. rewrite H0.
    rewrite (IH m1 m2 (a + 1) (b + 1)); [reflexivity |].
    intros i Hi. replace (a + 1 + i) with (a + (1 + i)) by lia.
    replace (b + 1 + i) with (b + (1 + i)) by lia. apply H. lia.
Qed.

Lemma load_range n : forall m a, 0 <= load n m a < 256 ^ Z.of_nat n.
Proof.
  induction n as [| k IH]; intros m a.
  - simpl. lia.
  - cbn [load]. rewrite Nat2Z.inj_succ, Z.pow_succ_r by lia.
    assert (B := Z_of_byte_range (m a)). specialize (IH m (a + 1)). nia.
Qed.

(** Reading the low [n] bytes of a stored value of [n + k] bytes. *)
Lemma load_store_low n : forall k m a v,
  load n (store (n + k) m a v) a = v mod 256 ^ Z.of_nat n.
Proof.
  induction n as [| n IH]; intros k m a v.
  - simpl. rewrite Z.mod_1_r. reflexivity.
  - cbn [load store Nat.add].
    rewrite IH. rewrite store_out by lia. rewrite poke_same.
    rewrite Z_of_byte_of_Z.
    rewrite Nat2Z.inj_succ, Z.pow_succ_r by lia.
    assert (P : 0 < 256 ^ Z.of_nat n) by (apply Z.pow_pos_nonneg; lia).
    rewrite Z.rem_mul_r by lia. reflexivity.
Qed.

(** Reading the [k] bytes above the low [n] of a stored value. *)
Lemma load_store_high n : forall k m a v,
  load k (store (n + k) m a v) (a + Z.of_nat n) =
  (v / 256 ^ Z.of_nat n) mod 256 ^ Z.of_nat k.
Proof.
  induction n as [| n IH]; intros k m a v.
  - cbn [Nat.add]. change (Z.of_nat 0) with 0. rewrite Z.add_0_r.
    change (256 ^ 0) with 1. rewrite Z.div_1_r.
    replace k with (k + 0)%nat at 2 by lia. apply load_store_low.
  - cbn [store Nat.add].
    replace (a + Z.of_nat (S n)) with (a + 1 + Z.of_nat n) by lia.
    rewrite IH.
    rewrite Nat2Z.inj_succ, Z.pow_succ_r by lia.
    assert (P : 0 < 256 ^ Z.of_nat n) by (apply Z.pow_pos_nonneg; lia).
    rewrite Z.div_div by lia. reflexivity.
Qed.

Lemma load_store n m a v : load n (store n m a v) a = v mod 256 ^ Z.of_nat n.
Proof.
  replace n with (n + 0)%nat at 2 by lia. apply load_store_low.
Qed.

(** A load sees through a store to a disjoint range. *)
Lemma load_store_other n k m a b v :
  (a + Z.of_nat n <= b \/ b + Z.of_nat k <= a) ->
  load n (store k m b v) a = load n m a.
Proof.
  intros D. apply load_ext. intros x Hx. apply store_out. lia.
Qed.

(** ** The monad *)

Lemma bind_ret {A B} (a : A) (k : A -> M B) s : bind (ret a) k s = k a s.
Proof. reflexivity. Qed.

Lemma bind_assoc {A B C} (c : M A) (k : A -> M B) (h : B -> M C) s :
  bind (bind c k) h s = bind c (fun x => bind (k x) h) s.
Proof. unfold bind. destruct (c s); reflexivity. Qed.

Lemma bind_read {B} n a (k : Z -> M B) s :
  bind (read n a) k s = k (load n (st_mem s) a) s.
Proof. reflexivity. Qed.

Lemma bind_write {B} n a v (k : unit -> M B) s :
  bind (write n a v) k s =
  k tt {| st_mem := store n (st_mem s) a v; st_log := st_log s |}.
Proof. reflexivity. Qed.

Lemma bind_emit {B} e (k : unit -> M B) s :
  bind (emit e) k s =
  k tt {| st_mem := st_mem s; st_log := st_log s ++ [e] |}.
Proof. reflexivity. Qed.

Lemma bind_wordcpy `{Layout} `{Env} {B} dst src n (k : unit -> M B) s :
  bind (wordcpy dst src n) k s =
  k tt {| st_mem := copy (Z.to_nat n) (st_mem s) dst src; st_log := st_log s |}.
Proof. reflexivity. Qed.

Lemma bind_assert {B} a c (k : unit -> M B) s :
  c = true -> bind (assert a c) k s = k tt s.
Proof. intros ->. reflexivity. Qed.

Lemma bind_assert_false {B} a c (k : unit -> M B) s :
  c = false -> bind (assert a c) k s = Abort (AssertionFailed a).
Proof. intros ->. reflexivity. Qed.

Lemma bind_Done {A B} (c : M A) (k : A -> M B) s a s' :
  c s = Done a s' -> bind c k s = k a s'.
Proof. unfold bind. intros ->. reflexivity. Qed.

Lemma bind_Abort {A B} (c : M A) (k : A -> M B) s f :
  c s = Abort f -> bind c k s = Abort f.
Proof. unfold bind. intros ->. reflexivity. Qed.

(** One step of symbolic execution. *)
Ltac step :=
  first [ rewrite bind_assoc
        | rewrite bind_ret
        | rewrite bind_read
        | rewrite bind_write
        | rewrite bind_wordcpy
        | rewrite bind_emit ];
  cbv beta; cbn [st_mem st_log].

Ltac steps := repeat step.

(** ** Running [Create] *)

Section CreateRun.

Context {L : Layout} {E : Env}.

Lemma Func_deref_Some p f s : funcs p = Some f -> Func_deref p s = Done f s.
Proof. unfold Func_deref. intros ->. reflexivity. Qed.

Lemma MM_objMalloc_Some size p s :
  objMalloc_pick (st_log s) size = Some p ->
  MM_objMalloc size s =
  Done p {| st_mem := st_mem s; st_log := st_log s ++ [EvMalloc size p] |}.
Proof. unfold MM_objMalloc. intros ->. reflexivity. Qed.

Lemma MM_objMalloc_None size s :
  objMalloc_pick (st_log s) size = None ->
  MM_objMalloc size s = Abort OutOfMemory.
Proof. unfold MM_objMalloc. intros ->. reflexivity. Qed.

Lemma Create_run clone objSize mayUseVV fp numSlots ra ro s f node :
  Create_checks clone mayUseVV fp ro s f ->
  objMalloc_pick (st_log s) (totalSize_of objSize numSlots) = Some node ->
  let frameSize := frameSize_of numSlots in
  let totalSize := totalSize_of objSize numSlots in
  Create clone objSize mayUseVV fp numSlots ra ro s =
  Done (node + sizeof_ResumableNode + frameSize + sizeof_Resumable)
       {| st_mem := mem_created clone (st_mem s) fp node frameSize totalSize ra ro;
          st_log := log_created clone mayUseVV f s fp node frameSize totalSize |}.
Proof.
  intros [Hfp Hres Hptr Hf Hr Hc Hvv] Hm frameSize totalSize.
  unfold Create. fold frameSize totalSize.
  apply Z.eqb_neq in Hfp, Hptr.
  rewrite bind_assert by (rewrite Hfp; reflexivity).
  unfold ActRec_resumed, ActRec_func. steps.
  rewrite bind_assert by (rewrite Hres; apply eqb_reflx).
  steps.
  rewrite bind_assert by (rewrite Hptr; reflexivity).
  rewrite (bind_Done _ _ _ _ _ (Func_deref_Some _ _ _ Hf)).
  rewrite bind_assert by exact Hr.
  rewrite bind_assert by exact Hc.
  rewrite (bind_Done _ _ _ _ _ (MM_objMalloc_Some _ _ _ Hm)).
  steps.
  unfold mem_created, log_created, hands_off, mem_copied, mem_node.
  destruct clone; cbn [negb andb].
  - steps. unfold ret. repeat f_equal.
  - unfold ActRec_setResumed. steps.
    rewrite bind_assert by (apply Hvv; reflexivity).
    destruct (mayUseVV && Func_mayUseVV f); cbn [andb].
    + unfold ActRec_hasVarEnv, ActRec_getVarEnv, VarEnv_suspend.
      steps.
      match goal with
      | |- context [negb (?v =? 0)] => destruct (negb (v =? 0)) eqn:Hve
      end.
      * steps. unfold ret. rewrite <- app_assoc. reflexivity.
      * steps. unfold ret. reflexivity.
    + steps. unfold ret. reflexivity.
Qed.

End CreateRun.

(** ** The layout of [struct Resumable] *)

Lemma align_up_ge x a : 0 < a -> x <= align_up x a.
Proof.
  intros Ha. unfold align_up.
  assert (H := Z.mod_pos_bound (- x) a Ha). lia.
Qed.

Lemma align_up_zero a : align_up 0 a = 0.
Proof. unfold align_up. simpl. rewrite Zmod_0_l. reflexivity. Qed.

Section LayoutFacts.

Context {L : Layout}.

Lemma arOff_zero : arOff = 0.
Proof.
  unfold arOff, Resumable_offsets, Resumable_fields.
  cbn [field_offsets nth]. apply align_up_zero.
Qed.

Lemma resumeAddrOff_ge : sizeof_ActRec <= resumeAddrOff.
Proof.
  unfold resumeAddrOff, Resumable_offsets, Resumable_fields.
  cbn [field_offsets nth].
  rewrite align_up_zero. apply align_up_ge. lia.
Qed.

Lemma resumeOffsetOff_ge : resumeAddrOff + 8 <= resumeOffsetOff.
Proof.
  unfold resumeOffsetOff, resumeAddrOff, Resumable_offsets, Resumable_fields.
  cbn [field_offsets nth]. apply align_up_ge. lia.
Qed.

Lemma sizeof_Resumable_ge : resumeOffsetOff + 8 <= sizeof_Resumable.
Proof. unfold sizeof_Resumable. apply align_up_ge. lia. Qed.

Lemma sizeof_Resumable_split :
  sizeof_Resumable = sizeof_ActRec + sizeof_RestOfResumable.
Proof. unfold sizeof_RestOfResumable. lia. Qed.

Lemma sizeof_RestOfResumable_ge : 16 <= sizeof_RestOfResumable.
Proof.
  unfold sizeof_RestOfResumable.
  assert (H1 := resumeAddrOff_ge). assert (H2 := resumeOffsetOff_ge).
  assert (H3 := sizeof_Resumable_ge). lia.
Qed.

(** Without wrap-around the sizes [Create] computes are the plain sums. *)
Lemma frameSize_of_exact objSize numSlots :
  layout_ok -> Create_sizes objSize numSlots ->
  frameSize_of numSlots = numSlots * sizeof_TypedValue.
Proof.
  intros LO [Hn Ho Hf]. unfold frameSize_of.
  assert (H3 := sizeof_RestOfResumable_ge).
  assert (H4 := sizeof_Resumable_split).
  assert (Hp : 0 <= numSlots * sizeof_TypedValue)
    by (destruct LO; apply Z.mul_nonneg_nonneg; lia).
  destruct LO. apply u64_id. unfold is_u64. lia.
Qed.

Lemma totalSize_of_exact objSize numSlots :
  layout_ok -> Create_sizes objSize numSlots ->
  totalSize_of objSize numSlots =
  sizeof_ResumableNode + numSlots * sizeof_TypedValue
  + sizeof_Resumable + objSize.
Proof.
  intros LO SZ. unfold totalSize_of.
  rewrite (frameSize_of_exact objSize) by assumption.
  destruct SZ as [Hn Ho Hf].
  assert (H3 := sizeof_RestOfResumable_ge).
  assert (H4 := sizeof_Resumable_split).
  assert (Hp : 0 <= numSlots * sizeof_TypedValue)
    by (destruct LO; apply Z.mul_nonneg_nonneg; lia).
  destruct LO.
  rewrite (u64_id (_ + numSlots * _)) by (unfold is_u64; lia).
  rewrite (u64_id (_ + sizeof_Resumable)) by (unfold is_u64; lia).
  apply u64_id. unfold is_u64. lia.
Qed.

End LayoutFacts.

(** ** The packed word *)

Lemma testbit_u64 x i : 0 <= i < 64 -> Z.testbit (u64 x) i = Z.testbit x i.
Proof.
  intros Hi. unfold u64, wrap. apply Z.mod_pow2_bits_low. lia.
Qed.

(** The low half of the packed word is the offset. *)
Lemma pack_low totalSize ro :
  pack_offsetAndSize totalSize ro mod 2 ^ 32 = ro mod 2 ^ 32.
Proof.
  unfold pack_offsetAndSize.
  rewrite <- !Z.land_ones by lia.
  apply Z.bits_inj'. intros i Hi.
  rewrite !Z.land_spec, Z.lor_spec.
  destruct (Z_lt_le_dec i 32) as [Hlt | Hge].
  - rewrite !testbit_u64 by lia.
    rewrite Z.shiftl_spec_low by lia. reflexivity.
  - rewrite Z.ones_spec_high by lia. rewrite !andb_false_r. reflexivity.
Qed.

(** The high half is the low 32 bits of the size, when the offset is not
    negative. *)
Lemma pack_high totalSize ro :
  0 <= ro < 2 ^ 32 ->
  (pack_offsetAndSize totalSize ro / 2 ^ 32) mod 2 ^ 32 = totalSize mod 2 ^ 32.
Proof.
  intros Hro. unfold pack_offsetAndSize.
  rewrite <- Z.shiftr_div_pow2 by lia.
  rewrite <- !Z.land_ones by lia.
  apply Z.bits_inj'. intros i Hi.
  rewrite !Z.land_spec, Z.shiftr_spec, Z.lor_spec by lia.
  destruct (Z_lt_le_dec i 32) as [Hlt | Hge].
  - rewrite !testbit_u64 by lia.
    rewrite Z.shiftl_spec by lia.
    replace (i + 32 - 32) with i by lia.
    replace (Z.testbit ro (i + 32)) with false; [rewrite orb_false_r; reflexivity |].
    symmetry. rewrite <- (Z.mod_small ro (2 ^ 32)) by lia.
    apply Z.mod_pow2_bits_high. lia.
  - rewrite Z.ones_spec_high by lia. rewrite !andb_false_r. reflexivity.
Qed.

(** With a negative offset the conversion to 64 bits fills the high half. *)
Lemma pack_high_neg totalSize ro :
  - 2 ^ 31 <= ro < 0 ->
  (pack_offsetAndSize totalSize ro / 2 ^ 32) mod 2 ^ 32 = 2 ^ 32 - 1.
Proof.
  intros Hro. unfold pack_offsetAndSize.
  rewrite <- Z.shiftr_div_pow2 by lia.
  rewrite <- !Z.land_ones by lia.
  change (2 ^ 32 - 1) with (Z.ones 32).
  apply Z.bits_inj'. intros i Hi.
  rewrite !Z.land_spec, Z.shiftr_spec, Z.lor_spec by lia.
  destruct (Z_lt_le_dec i 32) as [Hlt | Hge].
  - rewrite !testbit_u64 by lia.
    rewrite Z.ones_spec_low by lia. rewrite andb_true_r.
    replace (Z.testbit ro (i + 32)) with true; [apply orb_true_r |].
    symmetry. apply Z.bits_above_log2_neg; [lia |].
    apply Z.lt_le_trans with (m := 32); [| lia].
    destruct (Z.eq_dec (Z.pred (- ro)) 0) as [E0 | Hne].
    + rewrite E0. simpl. lia.
    + apply Z.log2_lt_pow2; lia.
  - rewrite Z.ones_spec_high by lia. rewrite !andb_false_r. reflexivity.
Qed.

(** ** The memory [Create] leaves behind, region by region *)

Lemma lor_u32 a b :
  0 <= a < 2 ^ 32 -> 0 <= b < 2 ^ 32 -> Z.lor a b mod 2 ^ 32 = Z.lor a b.
Proof.
  intros Ha Hb.
  rewrite <- (Z.mod_small a (2 ^ 32)) at 2 by lia.
  rewrite <- (Z.mod_small b (2 ^ 32)) at 2 by lia.
  rewrite <- !Z.land_ones by lia. apply Z.land_lor_distr_l.
Qed.

Lemma resumed_bit_range k : 0 <= k < 32 -> 0 <= Z.shiftl 1 k < 2 ^ 32.
Proof.
  intros Hk. rewrite Z.shiftl_mul_pow2 by lia. rewrite Z.mul_1_l.
  split; [apply Z.pow_nonneg; lia | apply Z.pow_lt_mono_r; lia].
Qed.

Lemma testbit_lor_bit v k : 0 <= k -> Z.testbit (Z.lor v (Z.shiftl 1 k)) k = true.
Proof.
  intros Hk. rewrite Z.lor_spec, Z.shiftl_spec by lia.
  rewrite Z.sub_diag. simpl. apply orb_true_r.
Qed.

Section CreateMemory.

Context {L : Layout} {E : Env}.

Variables (m : mem) (fp node numSlots objSize : Z).

Hypothesis LO : layout_ok.
Hypothesis SZ : Create_sizes objSize numSlots.

Let frameSize := frameSize_of numSlots.
Let totalSize := totalSize_of objSize numSlots.
Let frame := node + sizeof_ResumableNode.
Let resumable := frame + frameSize.

Hypothesis FR : Create_fresh fp node numSlots totalSize.

(** The arithmetic of the block, for [lia]. *)
Lemma block_arith :
  frameSize = numSlots * sizeof_TypedValue /\
  totalSize = sizeof_ResumableNode + frameSize + sizeof_Resumable + objSize /\
  0 <= frameSize /\ 0 <= objSize /\ totalSize < 2 ^ 64 /\
  arOff = 0 /\ sizeof_ActRec <= resumeAddrOff /\
  resumeAddrOff + 8 <= resumeOffsetOff /\
  resumeOffsetOff + 8 <= sizeof_Resumable /\
  0 <= node /\ frameSize <= fp < 2 ^ 64 /\
  (node + totalSize <= fp - frameSize \/ fp + sizeof_ActRec <= node).
Proof.
  assert (Hf : frameSize = numSlots * sizeof_TypedValue)
    by (apply (frameSize_of_exact objSize); assumption).
  assert (Ht := totalSize_of_exact objSize numSlots LO SZ).
  fold totalSize in Ht.
  assert (Hp : 0 <= numSlots * sizeof_TypedValue)
    by (destruct LO, SZ; apply Z.mul_nonneg_nonneg; lia).
  assert (H0 := arOff_zero). assert (H1 := resumeAddrOff_ge).
  assert (H2 := resumeOffsetOff_ge). assert (H3 := sizeof_Resumable_ge).
  destruct SZ, FR.
  repeat split; lia.
Qed.

Ltac arith :=
  let H := fresh "BA" in
  pose proof block_arith as H;
  destruct H as (? & ? & ? & ? & ? & ? & ? & ? & ? & ? & [? ?] & ?);
  destruct LO as [? [? ?] ? ? ? ? [? ?] [? ?] ? ? ? [? [? ?]]].

Lemma mem_node_out x :
  ~ (node <= x < frame) -> mem_node m node frameSize x = m x.
Proof.
  intros Hx. unfold mem_node. arith.
  rewrite !store_out; [reflexivity | lia | lia].
Qed.

(** Nothing outside the block is written before the header is. *)
Lemma mem_copied_outside clone x :
  ~ (node <= x < resumable + sizeof_ActRec) ->
  mem_copied clone m fp node frameSize x = m x.
Proof.
  intros Hx. unfold mem_copied. fold frame. arith.
  destruct clone.
  - rewrite copy_out.
    + apply mem_node_out. lia.
    + rewrite u64_id by (unfold is_u64; lia). rewrite Z2Nat.id by lia.
      unfold resumable in Hx. lia.
  - rewrite store_out by (unfold resumable in Hx; lia).
    rewrite copy_out.
    + apply mem_node_out. lia.
    + rewrite u64_id by (unfold is_u64; lia). rewrite Z2Nat.id by lia.
      unfold resumable in Hx. lia.
Qed.

(** Clone: the record from [m_func] on is the source's. *)
Lemma mem_copied_clone_tail i :
  offsetof_m_func <= i < sizeof_ActRec ->
  mem_copied true m fp node frameSize (resumable + i) = m (fp + i).
Proof.
  intros Hi. unfold mem_copied. fold frame. fold resumable. arith.
  replace (resumable + i)
    with (resumable + arOff + offsetof_m_func + (i - offsetof_m_func)) by lia.
  rewrite copy_in.
  - rewrite mem_node_out by (unfold resumable, frame; lia). f_equal. lia.
  - rewrite u64_id by (unfold is_u64; lia). rewrite Z2Nat.id by lia.
    unfold resumable, frame. lia.
  - rewrite u64_id by (unfold is_u64; lia). rewrite Z2Nat.id by lia. lia.
Qed.

(** Clone: between the node and [m_func] nothing is written. *)
Lemma mem_copied_clone_below x :
  frame <= x < resumable + offsetof_m_func ->
  mem_copied true m fp node frameSize x = m x.
Proof.
  intros Hx. unfold mem_copied. fold frame. fold resumable. arith.
  rewrite copy_out by lia. apply mem_node_out. lia.
Qed.

(** Fresh suspend: locals and record are the caller's, flag word aside. *)
Lemma mem_copied_fresh_in i :
  0 <= i < frameSize + sizeof_ActRec ->
  ~ (frameSize + offsetof_m_numArgsAndFlags <= i
     < frameSize + offsetof_m_numArgsAndFlags + 4) ->
  mem_copied false m fp node frameSize (frame + i) = m (fp - frameSize + i).
Proof.
  intros Hi Hfl. unfold mem_copied. fold frame. fold resumable. arith.
  rewrite store_out by (unfold resumable; simpl Z.of_nat; lia).
  rewrite (u64_id (fp - frameSize)) by (unfold is_u64; lia).
  rewrite copy_in.
  - apply mem_node_out. unfold frame. lia.
  - rewrite u64_id by (unfold is_u64; lia). rewrite Z2Nat.id by lia.
    unfold frame. lia.
  - rewrite u64_id by (unfold is_u64; lia). rewrite Z2Nat.id by lia. lia.
Qed.

Lemma mem_copied_fresh_flags :
  load 4 (mem_copied false m fp node frameSize)
         (resumable + offsetof_m_numArgsAndFlags) =
  Z.lor (load 4 m (fp + offsetof_m_numArgsAndFlags))
        (Z.shiftl 1 kResumedShift).
Proof.
  unfold mem_copied. fold frame. fold resumable. arith.
  replace (resumable + arOff) with resumable by lia.
  rewrite load_store. change (256 ^ Z.of_nat 4) with (2 ^ 32).
  rewrite (u64_id (fp - frameSize)) by (unfold is_u64; lia).
  assert (Hl : load 4
      (copy (Z.to_nat (u64 (frameSize + sizeof_ActRec)))
            (mem_node m node frameSize) frame (fp - frameSize))
      (resumable + offsetof_m_numArgsAndFlags) =
    load 4 m (fp + offsetof_m_numArgsAndFlags)).
  { apply load_shift. intros i Hi. simpl Z.of_nat in Hi.
    replace (resumable + offsetof_m_numArgsAndFlags + i)
      with (frame + (frameSize + offsetof_m_numArgsAndFlags + i))
      by (unfold resumable; lia).
    rewrite copy_in.
    - rewrite mem_node_out by (unfold frame; lia). f_equal. lia.
    - rewrite u64_id by (unfold is_u64; lia). rewrite Z2Nat.id by lia.
      unfold frame. lia.
    - rewrite u64_id by (unfold is_u64; lia). rewrite Z2Nat.id by lia. lia. }
  rewrite Hl. apply lor_u32.
  - apply (load_range 4).
  - apply resumed_bit_range. lia.
Qed.

(** The header is written last, above the record. *)
Lemma mem_created_below_header clone ra ro x :
  ~ (resumable + resumeAddrOff <= x < resumable + resumeOffsetOff + 8) ->
  mem_created clone m fp node frameSize totalSize ra ro x =
  mem_copied clone m fp node frameSize x.
Proof.
  intros Hx. unfold mem_created. fold frame. fold resumable. arith.
  rewrite !store_out by (simpl Z.of_nat; lia). reflexivity.
Qed.

Lemma mem_created_resumeAddr clone ra ro :
  load 8 (mem_created clone m fp node frameSize totalSize ra ro)
         (resumable + resumeAddrOff) = u64 ra.
Proof.
  unfold mem_created. fold frame. fold resumable. arith.
  rewrite load_store_other by (simpl Z.of_nat; lia).
  apply load_store.
Qed.

Lemma mem_created_resumeOffset clone ra ro :
  load 4 (mem_created clone m fp node frameSize totalSize ra ro)
         (resumable + resumeOffsetOff) = ro mod 2 ^ 32.
Proof.
  unfold mem_created. fold frame. fold resumable.
  rewrite (load_store_low 4 4). change (256 ^ Z.of_nat 4) with (2 ^ 32).
  apply pack_low.
Qed.

Lemma mem_created_size clone ra ro :
  load 4 (mem_created clone m fp node frameSize totalSize ra ro)
         (resumable + sizeOff) =
  (pack_offsetAndSize totalSize ro / 2 ^ 32) mod 2 ^ 32.
Proof.
  unfold mem_created, sizeOff. fold frame. fold resumable.
  replace (resumable + (resumeOffsetOff + 4))
    with (resumable + resumeOffsetOff + Z.of_nat 4) by (simpl Z.of_nat; lia).
  apply (load_store_high 4 4).
Qed.

End CreateMemory.

(** ** The checks of [Create] on the example machine *)

Lemma example_layout_ok : @layout_ok example_layout.
Proof. constructor; cbn; lia. Qed.

Lemma example_checks clone ro varEnv :
  0 <= ro < 100 ->
  @Create_checks example_layout example_env clone true example_fp ro
    (example_state clone varEnv) example_func.
Proof.
  intros Hro. constructor.
  - discriminate.
  - destruct clone; vm_compute; reflexivity.
  - destruct clone; vm_compute; discriminate.
  - destruct clone; vm_compute; reflexivity.
  - reflexivity.
  - unfold contains. cbn [base past example_func].
    apply andb_true_intro. split; [apply Z.leb_le | apply Z.ltb_lt]; lia.
  - intros _. reflexivity.
Qed.

(** ** The accessors *)

Section Accessors.

Context {L : Layout} {E : Env}.

Variables (this : addr) (s : state) (f : Func).

(** The record in front of the header names the function [f]. *)
Hypothesis HF : funcs (load 8 (st_mem s) (actRec this + offsetof_m_func)) = Some f.

Lemma resumeOffset_run :
  let o := i32 (load 4 (st_mem s) (this + resumeOffsetOff)) in
  resumeOffset this s =
  if contains f o then Done o s else Abort (AssertionFailed A_contains).
Proof.
  intros o. unfold resumeOffset, ActRec_func, m_resumeOffset. steps.
  rewrite (bind_Done _ _ _ _ _ (Func_deref_Some _ _ _ HF)).
  steps. fold o.
  destruct (contains f o) eqn:Hc.
  - rewrite bind_assert by reflexivity. reflexivity.
  - apply bind_assert_false. reflexivity.
Qed.

Lemma setResumeAddr_run a o :
  setResumeAddr this a o s =
  if contains f o then Done tt (redirected this s a o)
  else Abort (AssertionFailed A_contains).
Proof.
  unfold setResumeAddr, ActRec_func. steps.
  rewrite (bind_Done _ _ _ _ _ (Func_deref_Some _ _ _ HF)).
  destruct (contains f o) eqn:Hc.
  - rewrite bind_assert by reflexivity. steps. reflexivity.
  - apply bind_assert_false. reflexivity.
Qed.

Hypothesis LO : layout_ok.

Lemma redirected_func a o :
  load 8 (st_mem (redirected this s a o)) (actRec this + offsetof_m_func) =
  load 8 (st_mem s) (actRec this + offsetof_m_func).
Proof.
  unfold redirected, actRec. cbn [st_mem].
  assert (H0 := arOff_zero). assert (H1 := resumeAddrOff_ge).
  assert (H2 := resumeOffsetOff_ge). destruct LO.
  rewrite !load_store_other by (simpl Z.of_nat; lia). reflexivity.
Qed.

Lemma redirected_resumeAddr a o :
  load 8 (st_mem (redirected this s a o)) (this + resumeAddrOff) = u64 a.
Proof.
  unfold redirected. cbn [st_mem]. assert (H2 := resumeOffsetOff_ge).
  rewrite load_store_other by (simpl Z.of_nat; lia). apply load_store.
Qed.

Lemma redirected_resumeOffset a o :
  load 4 (st_mem (redirected this s a o)) (this + resumeOffsetOff) = u32 o.
Proof. unfold redirected. cbn [st_mem]. apply load_store. Qed.

(** The size half of the packed word is out of [setResumeAddr]'s reach. *)
Lemma redirected_size a o :
  load 4 (st_mem (redirected this s a o)) (this + sizeOff) =
  load 4 (st_mem s) (this + sizeOff).
Proof.
  unfold redirected, sizeOff. cbn [st_mem]. assert (H2 := resumeOffsetOff_ge).
  rewrite !load_store_other by (simpl Z.of_nat; lia). reflexivity.
Qed.

End Accessors.

Lemma size_run `{Layout} this s :
  size this s = Done (u64 (i32 (load 4 (st_mem s) (this + sizeOff)))) s.
Proof. reflexivity. Qed.

Lemma resumeAddr_run `{Layout} this s :
  resumeAddr this s = Done (load 8 (st_mem s) (this + resumeAddrOff)) s.
Proof. reflexivity. Qed.

Lemma destroy_run `{Layout} `{Env} T obj s :
  destroy T obj s =
  let sz := u64 (i32 (load 4 (st_mem s) (FromObj obj + sizeOff))) in
  Done tt {| st_mem := dtor_T T obj (st_mem s);
             st_log := st_log s ++
                       [EvDtor obj;
                        EvFree (u64 (obj + sizeof_T T - sz)) sz] |}.
Proof.
  unfold destroy, Destroy, size, m_size, run_dtor, MM_objFree. steps.
  unfold bind, emit. cbn [st_mem st_log]. rewrite <- app_assoc. reflexivity.
Qed.

(** * The claims *)

Section Claims.

Context {L : Layout} {E : Env}.

Lemma Create_oom clone objSize mayUseVV fp numSlots ra ro s f :
  Create_checks clone mayUseVV fp ro s f ->
  objMalloc_pick (st_log s) (totalSize_of objSize numSlots) = None ->
  Create clone objSize mayUseVV fp numSlots ra ro s = Abort OutOfMemory.
Proof.
  intros [Hfp Hres Hptr Hf Hr Hc Hvv] Hm.
  unfold Create.
  apply Z.eqb_neq in Hfp, Hptr.
  rewrite bind_assert by (rewrite Hfp; reflexivity).
  unfold ActRec_resumed, ActRec_func. steps.
  rewrite bind_assert by (rewrite Hres; apply eqb_reflx).
  steps.
  rewrite bind_assert by (rewrite Hptr; reflexivity).
  rewrite (bind_Done _ _ _ _ _ (Func_deref_Some _ _ _ Hf)).
  rewrite bind_assert by exact Hr.
  rewrite bind_assert by exact Hc.
  apply bind_Abort. apply MM_objMalloc_None. exact Hm.
Qed.

(** Only the memory manager's answer enters the log as an [EvMalloc]. *)
Lemma log_created_shape clone mayUseVV f s fp node frameSize totalSize :
  exists rest,
    log_created clone mayUseVV f s fp node frameSize totalSize =
      st_log s ++ EvMalloc totalSize node :: rest /\
    (forall sz p, ~ In (EvMalloc sz p) rest) /\
    (forall p sz, ~ In (EvFree p sz) rest).
Proof.
  unfold log_created.
  destruct (hands_off clone mayUseVV f (st_mem s) fp node frameSize).
  - eexists. split; [reflexivity |].
    split; intros ? ? [H | []]; discriminate.
  - exists []. split; [reflexivity |]. split; intros ? ? [].
Qed.

(** C1. For a call of [Create] with [numSlots] local slots and a trailing
    object of [objSize] bytes, the size computed and asked of the memory
    manager is
    [sizeof(ResumableNode) + numSlots * sizeof(TypedValue) + sizeof(ActRec)
     + (rest of Resumable) + objSize]:
    the memory manager is consulted with that size; when it has no block
    the call aborts, and otherwise the call returns, the log records one
    allocation, of that size, and the handle lies [objSize] bytes below
    the end of the block. *)
Theorem Create_requests_sum_of_regions
    clone objSize mayUseVV fp numSlots ra ro s f :
  layout_ok ->
  Create_checks clone mayUseVV fp ro s f ->
  Create_sizes objSize numSlots ->
  let total := sizeof_ResumableNode + numSlots * sizeof_TypedValue
               + sizeof_ActRec + sizeof_RestOfResumable + objSize in
  totalSize_of objSize numSlots = total /\
  match objMalloc_pick (st_log s) total with
  | None =>
      Create clone objSize mayUseVV fp numSlots ra ro s = Abort OutOfMemory
  | Some node =>
      exists s' rest,
        Create clone objSize mayUseVV fp numSlots ra ro s =
          Done (node + total - objSize) s' /\
        st_log s' = st_log s ++ EvMalloc total node :: rest /\
        (forall sz p, ~ In (EvMalloc sz p) rest)
  end.
Proof.
  intros LO CK SZ total.
  assert (Ht : totalSize_of objSize numSlots = total).
  { rewrite totalSize_of_exact by assumption.
    unfold total. rewrite sizeof_Resumable_split. lia. }
  split; [exact Ht |].
  destruct (objMalloc_pick (st_log s) total) as [node |] eqn:Hm.
  - rewrite <- Ht in Hm.
    destruct (log_created_shape clone mayUseVV f s fp node
                (frameSize_of numSlots) (totalSize_of objSize numSlots))
      as (rest & Hlog & Hno & _).
    eexists. exists rest.
    rewrite (Create_run _ _ _ _ _ _ _ _ _ _ CK Hm).
    cbn [st_log]. split; [| split].
    + f_equal.
      rewrite (frameSize_of_exact objSize) by assumption.
      unfold total. rewrite (sizeof_Resumable_split). lia.
    + rewrite Hlog, Ht. reflexivity.
    + exact Hno.
  - rewrite <- Ht in Hm. eapply Create_oom; eassumption.
Qed.

(** C3. The activation record lies at offset 0 of [struct Resumable]:
    [arOff() == 0], so the header pointer is the pointer to the record,
    also for the header that precedes a handle [Create] returned. *)
Theorem arOff_is_zero :
  arOff = 0 /\
  (forall this, actRec this = this) /\
  (forall obj, actRec (FromObj obj) = obj - sizeof_Resumable).
Proof.
  assert (H := arOff_zero).
  unfold actRec, FromObj. repeat split; intros; lia.
Qed.

End Claims.

(** The scenario of three 16-byte slots and a 40-byte object: 168 bytes
    are requested, 16 + 48 + 48 + 16 + 40. *)
Lemma Create_requests_sum_of_regions_witness :
  @totalSize_of example_layout 40 3 = 16 + 3 * 16 + 48 + 16 + 40 /\
  exists s' rest,
    @Create example_layout example_env false 40 true example_fp 3 4198400 12
      (example_state false 0) = Done (1048576 + 168 - 40) s' /\
    st_log s' = [] ++ EvMalloc 168 1048576 :: rest /\
    (forall sz p, ~ In (EvMalloc sz p) rest).
Proof.
  exact (@Create_requests_sum_of_regions example_layout example_env
           false 40 true example_fp 3 4198400 12 (example_state false 0)
           example_func example_layout_ok
           (example_checks false 12 0 ltac:(lia))
           ltac:(constructor; cbn; lia)).
Defined.

Lemma i32_small x : 0 <= x < 2 ^ 31 -> i32 x = x.
Proof.
  intros H. rewrite <- (u32_id x) at 1 by lia. apply i32_u32. unfold is_i32. lia.
Qed.

(** An offset within the bounds of a well-formed function is a
    non-negative [Offset]. *)
Lemma contains_range f o :
  func_ok f -> contains f o = true -> 0 <= o < 2 ^ 31.
Proof.
  unfold func_ok, contains. intros [Hb Hp] H.
  apply andb_prop in H. destruct H as [H1 H2].
  apply Z.leb_le in H1. apply Z.ltb_lt in H2. lia.
Qed.

Section AccessorClaims.

Context {L : Layout} {E : Env}.

(** C8. [resumeOffset()] leaves the state as it is; when the stored
    offset lies within the bounds of the function of the record it
    returns that offset, and when it lies outside, the assertion fails
    and no value is returned.  [setResumeAddr] makes the same check on
    its argument before it stores anything. *)
Theorem resumeOffset_bounds_checked this s f :
  funcs (load 8 (st_mem s) (actRec this + offsetof_m_func)) = Some f ->
  let o := i32 (load 4 (st_mem s) (this + resumeOffsetOff)) in
  (contains f o = true -> resumeOffset this s = Done o s) /\
  (contains f o = false ->
   resumeOffset this s = Abort (AssertionFailed A_contains)) /\
  (forall a o', contains f o' = false ->
   setResumeAddr this a o' s = Abort (AssertionFailed A_contains)) /\
  (forall a o', contains f o' = true ->
   exists s', setResumeAddr this a o' s = Done tt s' /\
              load 4 (st_mem s') (this + resumeOffsetOff) = u32 o' /\
              st_log s' = st_log s).
Proof.
  intros HF o.
  assert (R := resumeOffset_run this s f HF). cbv zeta in R. fold o in R.
  split; [| split; [| split]].
  - intros Hc. rewrite R, Hc. reflexivity.
  - intros Hc. rewrite R, Hc. reflexivity.
  - intros a o' Hc. rewrite (setResumeAddr_run this s f HF), Hc. reflexivity.
  - intros a o' Hc. exists (redirected this s a o').
    rewrite (setResumeAddr_run this s f HF), Hc.
    split; [reflexivity |]. split; [| reflexivity].
    apply redirected_resumeOffset.
Qed.

End AccessorClaims.

(** A header at address 28672 holding resume offset 12. *)
Lemma resumeOffset_bounds_checked_witness :
  let s := {| st_mem := store 4 (example_mem true 0) (example_fp + 56) 12;
              st_log := [] |} in
  (@resumeOffset example_layout example_env example_fp s = Done 12 s) /\
  (@setResumeAddr example_layout example_env example_fp 4198400 100 s =
     Abort (AssertionFailed A_contains)).
Proof.
  intros s.
  destruct (@resumeOffset_bounds_checked example_layout example_env
              example_fp s example_func ltac:(vm_compute; reflexivity))
    as (Hin & _ & Hset & _).
  split.
  - apply Hin. vm_compute. reflexivity.
  - apply Hset. vm_compute. reflexivity.
Defined.

(** ** The header [Create] writes *)

Section CreateHeader.

Context {L : Layout} {E : Env}.

(** The size half of the packed word holds the low 32 bits of the total. *)
Lemma created_size_field clone m fp node frameSize totalSize ra ro :
  0 <= ro < 2 ^ 31 ->
  load 4 (mem_created clone m fp node frameSize totalSize ra ro)
         (node + sizeof_ResumableNode + frameSize + sizeOff) =
  totalSize mod 2 ^ 32.
Proof.
  intros Hro. unfold mem_created, sizeOff.
  replace (node + sizeof_ResumableNode + frameSize + (resumeOffsetOff + 4))
    with (node + sizeof_ResumableNode + frameSize + resumeOffsetOff
          + Z.of_nat 4) by (simpl Z.of_nat; lia).
  rewrite (load_store_high 4 4). change (256 ^ Z.of_nat 4) with (2 ^ 32).
  apply pack_high. lia.
Qed.

Lemma FromObj_handle node frameSize :
  FromObj (node + sizeof_ResumableNode + frameSize + sizeof_Resumable) =
  node + sizeof_ResumableNode + frameSize.
Proof. unfold FromObj. lia. Qed.

(** The new record names the caller's function, in either mode. *)
Lemma created_func clone m fp node numSlots objSize ra ro :
  layout_ok -> Create_sizes objSize numSlots ->
  Create_fresh fp node numSlots (totalSize_of objSize numSlots) ->
  load 8 (mem_created clone m fp node (frameSize_of numSlots)
            (totalSize_of objSize numSlots) ra ro)
         (node + sizeof_ResumableNode + frameSize_of numSlots + offsetof_m_func) =
  load 8 m (fp + offsetof_m_func).
Proof.
  intros LO SZ FR.
  destruct (block_arith fp node numSlots objSize LO SZ FR)
    as (? & ? & ? & ? & ? & ? & ? & ? & ? & ? & [? ?] & ?).
  assert (LO' := LO). destruct LO'.
  apply load_shift. intros i Hi. simpl Z.of_nat in Hi.
  rewrite (mem_created_below_header m fp node numSlots objSize LO SZ FR)
    by (simpl Z.of_nat; lia).
  destruct clone.
  - replace (node + sizeof_ResumableNode + frameSize_of numSlots
             + offsetof_m_func + i)
      with (node + sizeof_ResumableNode + frameSize_of numSlots
            + (offsetof_m_func + i)) by lia.
    rewrite (mem_copied_clone_tail m fp node numSlots objSize LO SZ FR) by lia.
    f_equal. lia.
  - replace (node + sizeof_ResumableNode + frameSize_of numSlots
             + offsetof_m_func + i)
      with (node + sizeof_ResumableNode
            + (frameSize_of numSlots + offsetof_m_func + i)) by lia.
    rewrite (mem_copied_fresh_in m fp node numSlots objSize LO SZ FR) by lia.
    f_equal. lia.
Qed.

(** The caller's record is read for its variable environment after the
    copy, which has not touched it. *)
Lemma hands_off_spec clone mayUseVV fp numSlots objSize ro s f node :
  layout_ok ->
  Create_checks clone mayUseVV fp ro s f ->
  Create_sizes objSize numSlots ->
  Create_fresh fp node numSlots (totalSize_of objSize numSlots) ->
  load 8 (mem_copied clone (st_mem s) fp node (frameSize_of numSlots))
         (fp + offsetof_m_varEnv) =
    load 8 (st_mem s) (fp + offsetof_m_varEnv) /\
  hands_off clone mayUseVV f (st_mem s) fp node (frameSize_of numSlots) =
    negb clone && Func_mayUseVV f &&
    negb (load 8 (st_mem s) (fp + offsetof_m_varEnv) =? 0).
Proof.
  intros LO CK SZ FR.
  destruct (block_arith fp node numSlots objSize LO SZ FR)
    as (Hfs & Ht & ? & ? & ? & H0 & ? & ? & ? & ? & [? ?] & ?).
  assert (LO' := LO). destruct LO' as [? [? ?] ? ? ? ? [? ?] [? ?] ? ? ? [? [? ?]]].
  assert (Hve : load 8 (mem_copied clone (st_mem s) fp node
                          (frameSize_of numSlots))
                       (fp + offsetof_m_varEnv) =
                load 8 (st_mem s) (fp + offsetof_m_varEnv)).
  { apply load_ext. intros x Hx. simpl Z.of_nat in Hx.
    apply (mem_copied_outside _ fp node numSlots objSize LO SZ FR). lia. }
  split; [exact Hve |].
  unfold hands_off. rewrite Hve.
  destruct clone; [reflexivity |].
  assert (Hvv := ck_mayUseVV _ _ _ _ _ _ CK eq_refl).
  destruct mayUseVV, (Func_mayUseVV f); try reflexivity; discriminate.
Qed.

(** C2. For a pair (slot count, object size) whose total fits the size
    field of the header, [Create] followed by the destruction of the
    handle it returned gives back to the memory manager the block that
    was allocated: the base passed to [objFree] is the pointer
    [objMalloc] returned, the size passed is the total [Create] asked
    for, and the destructor of the trailing object runs before the
    block is freed. *)
Theorem create_destroy_releases_block
    T clone mayUseVV fp numSlots ra ro s f node :
  layout_ok ->
  Create_checks clone mayUseVV fp ro s f ->
  Create_sizes (sizeof_T T) numSlots ->
  func_ok f ->
  let total := totalSize_of (sizeof_T T) numSlots in
  total < 2 ^ 31 ->
  objMalloc_pick (st_log s) total = Some node ->
  exists h s1 s2 rest,
    Create clone (sizeof_T T) mayUseVV fp numSlots ra ro s = Done h s1 /\
    st_log s1 = st_log s ++ EvMalloc total node :: rest /\
    (forall sz p, ~ In (EvMalloc sz p) rest) /\
    (forall p sz, ~ In (EvFree p sz) rest) /\
    destroy T h s1 = Done tt s2 /\
    st_log s2 = st_log s1 ++ [EvDtor h; EvFree node total].
Proof.
  intros LO CK SZ FO total Hfit Hm.
  assert (Hro := contains_range f ro FO (ck_contains _ _ _ _ _ _ CK)).
  assert (Ht := totalSize_of_exact _ _ LO SZ). fold total in Ht.
  assert (Hfs := frameSize_of_exact _ _ LO SZ).
  assert (Hpos : 0 <= total).
  { unfold total, totalSize_of. apply u64_range. }
  destruct (log_created_shape clone mayUseVV f s fp node
              (frameSize_of numSlots) total) as (rest & Hlog & Hno1 & Hno2).
  eexists. eexists. eexists. exists rest.
  rewrite (Create_run _ _ _ _ _ _ _ _ _ _ CK Hm). cbv zeta. fold total.
  split; [reflexivity |]. cbn [st_log].
  split; [exact Hlog |]. split; [exact Hno1 |]. split; [exact Hno2 |].
  rewrite destroy_run. cbv zeta.
  split; [reflexivity |]. cbn [st_mem st_log].
  rewrite FromObj_handle, created_size_field by lia.
  rewrite i32_mod, (i32_small total) by lia.
  rewrite (u64_id total) by (unfold is_u64; lia).
  replace (node + sizeof_ResumableNode + frameSize_of numSlots
           + sizeof_Resumable + sizeof_T T - total) with node by lia.
  rewrite (u64_id node) by (apply (objMalloc_ptr _ _ _ Hm)).
  reflexivity.
Qed.

(** C10. The size is kept in the high half of the packed word and read
    back as a signed 32-bit integer: whatever the total, [Create] stores
    it unchecked, [m_size] holds the total's low 32 bits as a signed
    value and [size()] converts that to [size_t].  A total below 2^31
    is read back as it is; from 2^31 on the stored field differs from
    the total, being negative or cut to 32 bits, and (below
    2^64 - 2^31) so does [size()], which is the size destruction frees
    with, from a base that 64-bit pointer arithmetic wraps around. *)
Theorem Create_size_field_is_int32
    clone objSize mayUseVV fp numSlots ra ro s f node :
  Create_checks clone mayUseVV fp ro s f ->
  func_ok f ->
  let total := totalSize_of objSize numSlots in
  objMalloc_pick (st_log s) total = Some node ->
  exists h s',
    Create clone objSize mayUseVV fp numSlots ra ro s = Done h s' /\
    m_size (FromObj h) s' = Done (i32 total) s' /\
    size (FromObj h) s' = Done (u64 (i32 total)) s' /\
    (total < 2 ^ 31 -> i32 total = total /\ u64 (i32 total) = total) /\
    (2 ^ 31 <= total ->
       i32 total <> total /\
       (i32 total < 0 \/ i32 total = total mod 2 ^ 32 /\ 2 ^ 32 <= total)) /\
    (2 ^ 31 <= total < 2 ^ 64 - 2 ^ 31 -> u64 (i32 total) <> total) /\
    (forall T, exists s2,
       destroy T h s' = Done tt s2 /\
       st_log s2 = st_log s' ++
         [EvDtor h;
          EvFree (u64 (h + sizeof_T T - u64 (i32 total)))
                 (u64 (i32 total))]).
Proof.
  intros CK FO total Hm.
  assert (Hro := contains_range f ro FO (ck_contains _ _ _ _ _ _ CK)).
  assert (Hrange : 0 <= total < 2 ^ 64).
  { unfold total, totalSize_of. apply u64_range. }
  assert (Hfield : forall m,
    load 4 (mem_created clone m fp node (frameSize_of numSlots) total ra ro)
           (node + sizeof_ResumableNode + frameSize_of numSlots + sizeOff) =
    total mod 2 ^ 32) by (intros m; apply created_size_field; lia).
  eexists. eexists.
  rewrite (Create_run _ _ _ _ _ _ _ _ _ _ CK Hm). cbv zeta. fold total.
  split; [reflexivity |].
  split.
  { unfold m_size. steps. rewrite FromObj_handle, Hfield, i32_mod. reflexivity. }
  split.
  { rewrite size_run. cbn [st_mem].
    rewrite FromObj_handle, Hfield, i32_mod. reflexivity. }
  split.
  { intros Hlt. rewrite i32_small by lia.
    split; [reflexivity | apply u64_id; unfold is_u64; lia]. }
  assert (Hi := i32_range total). unfold is_i32 in Hi.
  split.
  { intros Hge. split; [lia |].
    unfold i32, sext, wrap in *. change (32 - 1) with 31 in *.
    assert (Hmod := Z.mod_pos_bound total (2 ^ 32) ltac:(lia)).
    destruct (total mod 2 ^ 32 <? 2 ^ 31) eqn:C.
    - right. split; [reflexivity |]. apply Z.ltb_lt in C.
      destruct (Z_lt_le_dec total (2 ^ 32)) as [Hs | Hb]; [| exact Hb].
      rewrite Z.mod_small in C by lia. lia.
    - left. lia. }
  split.
  { intros [Hge Hlt]. unfold u64, wrap.
    unfold i32, sext, wrap in *. change (32 - 1) with 31 in *.
    assert (Hmod := Z.mod_pos_bound total (2 ^ 32) ltac:(lia)).
    destruct (total mod 2 ^ 32 <? 2 ^ 31) eqn:C.
    - apply Z.ltb_lt in C. rewrite Z.mod_small by lia. lia.
    - apply Z.ltb_ge in C.
      assert (Em : (total mod 2 ^ 32 - 2 ^ 32) mod 2 ^ 64 =
                   total mod 2 ^ 32 - 2 ^ 32 + 2 ^ 64).
      { symmetry. apply Z.mod_unique with (q := -1); lia. }
      rewrite Em. lia. }
  intros T. eexists. rewrite destroy_run. cbv zeta.
  split; [reflexivity |]. cbn [st_mem st_log].
  rewrite FromObj_handle, Hfield, i32_mod. reflexivity.
Qed.

End CreateHeader.

Section RedirectClaims.

Context {L : Layout} {E : Env}.

(** C9. After [setResumeAddr(a1, o1)] and then [setResumeAddr(a2, o2)],
    both offsets within bounds, [resumeOffset()] returns [o2] and
    [resumeAddr()] returns [a2]; the bytes of [m_size] are untouched and
    [size()] is the same before, between and after the calls, so that
    destruction frees with the size the header held before them: for a
    header that [Create] made, the total [Create] recorded, as read
    through the 32-bit field. *)
Theorem setResumeAddr_last_write_wins this a1 o1 a2 o2 s f :
  layout_ok ->
  funcs (load 8 (st_mem s) (actRec this + offsetof_m_func)) = Some f ->
  contains f o1 = true -> contains f o2 = true ->
  is_i32 o2 -> is_u64 a2 ->
  exists s1 s2 sz,
    setResumeAddr this a1 o1 s = Done tt s1 /\
    setResumeAddr this a2 o2 s1 = Done tt s2 /\
    resumeOffset this s2 = Done o2 s2 /\
    resumeAddr this s2 = Done a2 s2 /\
    size this s = Done sz s /\
    size this s1 = Done sz s1 /\
    size this s2 = Done sz s2 /\
    load 4 (st_mem s2) (this + sizeOff) = load 4 (st_mem s) (this + sizeOff) /\
    (forall T, exists s3,
      destroy T (this + sizeof_Resumable) s2 = Done tt s3 /\
      st_log s3 = st_log s ++
        [EvDtor (this + sizeof_Resumable);
         EvFree (u64 (this + sizeof_Resumable + sizeof_T T - sz)) sz]) /\
    (forall clone objSize mayUseVV fp numSlots ra ro s0 f0 node,
      Create_checks clone mayUseVV fp ro s0 f0 ->
      func_ok f0 ->
      objMalloc_pick (st_log s0) (totalSize_of objSize numSlots) = Some node ->
      Create clone objSize mayUseVV fp numSlots ra ro s0
        = Done (this + sizeof_Resumable) s ->
      sz = u64 (i32 (totalSize_of objSize numSlots)) /\
      (totalSize_of objSize numSlots < 2 ^ 31 ->
       sz = totalSize_of objSize numSlots)).
Proof.
  intros LO HF H1 H2 Ho2 Ha2.
  set (s1 := redirected this s a1 o1).
  set (s2 := redirected this s1 a2 o2).
  assert (HF1 : funcs (load 8 (st_mem s1) (actRec this + offsetof_m_func)) = Some f).
  { unfold s1. rewrite redirected_func by exact LO. exact HF. }
  assert (HF2 : funcs (load 8 (st_mem s2) (actRec this + offsetof_m_func)) = Some f).
  { unfold s2. rewrite redirected_func by exact LO. exact HF1. }
  assert (Hs1 : load 4 (st_mem s1) (this + sizeOff) = load 4 (st_mem s) (this + sizeOff))
    by (apply redirected_size).
  assert (Hs2 : load 4 (st_mem s2) (this + sizeOff) = load 4 (st_mem s) (this + sizeOff))
    by (unfold s2; rewrite redirected_size; exact Hs1).
  exists s1, s2, (u64 (i32 (load 4 (st_mem s) (this + sizeOff)))).
  split; [rewrite (setResumeAddr_run this s f HF), H1; reflexivity |].
  split; [rewrite (setResumeAddr_run this s1 f HF1), H2; reflexivity |].
  split.
  { assert (Ho : i32 (load 4 (st_mem s2) (this + resumeOffsetOff)) = o2).
    { unfold s2. rewrite redirected_resumeOffset. apply i32_u32. exact Ho2. }
    rewrite (resumeOffset_run this s2 f HF2). cbv zeta.
    rewrite Ho, H2. reflexivity. }
  split.
  { assert (Ha : load 8 (st_mem s2) (this + resumeAddrOff) = a2).
    { unfold s2. rewrite redirected_resumeAddr. apply u64_id. exact Ha2. }
    rewrite resumeAddr_run, Ha. reflexivity. }
  split; [apply size_run |].
  split; [rewrite size_run, Hs1; reflexivity |].
  split; [rewrite size_run, Hs2; reflexivity |].
  split; [exact Hs2 |].
  split.
  { intros T. eexists. rewrite destroy_run. cbv zeta.
    split; [reflexivity |]. cbn [st_log].
    unfold FromObj.
    replace (this + sizeof_Resumable - sizeof_Resumable) with this by lia.
    rewrite Hs2. reflexivity. }
  intros clone objSize mayUseVV fp numSlots ra ro s0 f0 node CK FO Hm Hcr.
  assert (Hro := contains_range f0 ro FO (ck_contains _ _ _ _ _ _ CK)).
  rewrite (Create_run _ _ _ _ _ _ _ _ _ _ CK Hm) in Hcr. cbv zeta in Hcr.
  injection Hcr as Hthis Hst.
  assert (Hfield : load 4 (st_mem s) (this + sizeOff) =
                   totalSize_of objSize numSlots mod 2 ^ 32).
  { rewrite <- Hst. cbn [st_mem].
    replace this
      with (node + sizeof_ResumableNode + frameSize_of numSlots) by lia.
    apply created_size_field. lia. }
  rewrite Hfield, i32_mod.
  split; [reflexivity |].
  intros Hlt.
  assert (Hrange : 0 <= totalSize_of objSize numSlots < 2 ^ 64).
  { unfold totalSize_of. apply u64_range. }
  rewrite i32_small by lia. apply u64_id. unfold is_u64. lia.
Qed.

End RedirectClaims.

Lemma count_suspend_app l1 l2 :
  count_suspend (l1 ++ l2) = (count_suspend l1 + count_suspend l2)%nat.
Proof.
  induction l1 as [| e l1 IH]; simpl.
  - reflexivity.
  - destruct e; simpl; rewrite IH; reflexivity.
Qed.

Section CreateClaims.

Context {L : Layout} {E : Env}.

(** What the accessors read from the header [Create] wrote. *)
Lemma Create_header_reads
    clone objSize mayUseVV fp numSlots ra ro s f node :
  layout_ok ->
  Create_checks clone mayUseVV fp ro s f ->
  Create_sizes objSize numSlots ->
  func_ok f ->
  is_u64 ra ->
  let total := totalSize_of objSize numSlots in
  objMalloc_pick (st_log s) total = Some node ->
  Create_fresh fp node numSlots total ->
  exists h s',
    Create clone objSize mayUseVV fp numSlots ra ro s = Done h s' /\
    st_log s' = log_created clone mayUseVV f s fp node
                  (frameSize_of numSlots) total /\
    resumeAddr (FromObj h) s' = Done ra s' /\
    resumeOffset (FromObj h) s' = Done ro s' /\
    m_size (FromObj h) s' = Done (i32 total) s' /\
    size (FromObj h) s' = Done (u64 (i32 total)) s'.
Proof.
  intros LO CK SZ FO Hra total Hm FR.
  assert (Hc := ck_contains _ _ _ _ _ _ CK).
  assert (Hro := contains_range f ro FO Hc).
  eexists. eexists.
  rewrite (Create_run _ _ _ _ _ _ _ _ _ _ CK Hm). cbv zeta. fold total.
  split; [reflexivity |].
  split; [reflexivity |].
  split.
  { rewrite resumeAddr_run. cbn [st_mem]. rewrite FromObj_handle.
    unfold total.
    rewrite (mem_created_resumeAddr (st_mem s) fp node numSlots objSize LO SZ FR).
    rewrite (u64_id ra Hra). reflexivity. }
  split.
  { rewrite (resumeOffset_run _ _ f).
    - cbv zeta. cbn [st_mem]. rewrite FromObj_handle. unfold total.
      rewrite mem_created_resumeOffset.
      rewrite i32_mod, i32_small by lia. rewrite Hc. reflexivity.
    - cbn [st_mem]. rewrite FromObj_handle. unfold actRec.
      rewrite arOff_zero, Z.add_0_r. unfold total.
      rewrite created_func by assumption.
      apply (ck_func _ _ _ _ _ _ CK). }
  split.
  { unfold m_size. steps.
    rewrite FromObj_handle, created_size_field by lia.
    rewrite i32_mod. reflexivity. }
  rewrite size_run. cbn [st_mem].
  rewrite FromObj_handle, created_size_field by lia.
  rewrite i32_mod. reflexivity.
Qed.

(** C4 (as amended). After [Create] with resume address [ra] and an
    offset [ro] within the function's bounds, [resumeAddr()] is [ra],
    [resumeOffset()] is [ro], and [size()] is the total converted
    through the signed 32-bit field: the computed total itself whenever
    that is below 2^31. *)
Theorem Create_header_decodes
    clone objSize mayUseVV fp numSlots ra ro s f node :
  layout_ok ->
  Create_checks clone mayUseVV fp ro s f ->
  Create_sizes objSize numSlots ->
  func_ok f ->
  is_u64 ra ->
  let total := totalSize_of objSize numSlots in
  objMalloc_pick (st_log s) total = Some node ->
  Create_fresh fp node numSlots total ->
  exists h s',
    Create clone objSize mayUseVV fp numSlots ra ro s = Done h s' /\
    resumeAddr (FromObj h) s' = Done ra s' /\
    resumeOffset (FromObj h) s' = Done ro s' /\
    size (FromObj h) s' = Done (u64 (i32 total)) s' /\
    (total < 2 ^ 31 -> size (FromObj h) s' = Done total s').
Proof.
  intros LO CK SZ FO Hra total Hm FR.
  destruct (Create_header_reads clone objSize mayUseVV fp numSlots ra ro
              s f node LO CK SZ FO Hra Hm FR)
    as (h & s' & Hc & _ & Ha & Ho & _ & Hs).
  fold total in Hs.
  assert (Hrange : 0 <= total < 2 ^ 64).
  { unfold total, totalSize_of. apply u64_range. }
  exists h, s'. repeat split; try assumption.
  intros Hlt. rewrite Hs. rewrite i32_small by lia.
  rewrite u64_id by (unfold is_u64; lia). reflexivity.
Qed.

(** C5. In clone mode the new record, from [m_func] on, is a copy of the
    source record byte for byte, with the same function and the resumed
    flag set; the bytes of the record below [m_func], where [m_sfp] and
    [m_savedRip] lie, and the locals region are as the memory manager
    handed them out; and the variable environment is not called. *)
Theorem Create_clone_copies_from_m_func
    objSize mayUseVV fp numSlots ra ro s f node :
  layout_ok ->
  Create_checks true mayUseVV fp ro s f ->
  Create_sizes objSize numSlots ->
  let total := totalSize_of objSize numSlots in
  objMalloc_pick (st_log s) total = Some node ->
  Create_fresh fp node numSlots total ->
  exists h s',
    Create true objSize mayUseVV fp numSlots ra ro s = Done h s' /\
    let ar := actRec (FromObj h) in
    let m := st_mem s in
    let m' := st_mem s' in
    (forall i, offsetof_m_func <= i < sizeof_ActRec ->
       m' (ar + i) = m (fp + i)) /\
    load 8 m' (ar + offsetof_m_func) = load 8 m (fp + offsetof_m_func) /\
    Z.testbit (load 4 m' (ar + offsetof_m_numArgsAndFlags)) kResumedShift
      = true /\
    (forall i, 0 <= i < offsetof_m_func -> m' (ar + i) = m (ar + i)) /\
    load 8 m' (ar + offsetof_m_sfp) = load 8 m (ar + offsetof_m_sfp) /\
    load 8 m' (ar + offsetof_m_savedRip) = load 8 m (ar + offsetof_m_savedRip) /\
    (forall x, ar - numSlots * sizeof_TypedValue <= x < ar -> m' x = m x) /\
    st_log s' = st_log s ++ [EvMalloc total node].
Proof.
  intros LO CK SZ total Hm FR.
  destruct (block_arith fp node numSlots objSize LO SZ FR)
    as (Hfs & Ht & ? & ? & ? & H0 & ? & ? & ? & ? & [? ?] & ?).
  assert (LO' := LO). destruct LO' as [? [? ?] ? ? ? ? [? ?] [? ?] ? ? ? [? [? ?]]].
  eexists. eexists.
  rewrite (Create_run _ _ _ _ _ _ _ _ _ _ CK Hm). cbv zeta. fold total.
  split; [reflexivity |].
  cbn [st_mem st_log]. rewrite FromObj_handle. unfold actRec.
  rewrite H0, Z.add_0_r.
  set (res := node + sizeof_ResumableNode + frameSize_of numSlots).
  assert (Below : forall x,
    node + sizeof_ResumableNode <= x < res + offsetof_m_func ->
    mem_created true (st_mem s) fp node (frameSize_of numSlots) total ra ro x
    = st_mem s x).
  { intros x Hx. unfold total.
    rewrite (mem_created_below_header _ fp node numSlots objSize LO SZ FR)
      by (fold res; lia).
    apply (mem_copied_clone_below _ fp node numSlots objSize LO SZ FR).
    fold res. lia. }
  assert (Tail : forall i, offsetof_m_func <= i < sizeof_ActRec ->
    mem_created true (st_mem s) fp node (frameSize_of numSlots) total ra ro
      (res + i) = st_mem s (fp + i)).
  { intros i Hi. unfold total.
    rewrite (mem_created_below_header _ fp node numSlots objSize LO SZ FR)
      by (fold res; lia).
    apply (mem_copied_clone_tail _ fp node numSlots objSize LO SZ FR). lia. }
  split; [exact Tail |].
  split.
  { apply load_shift. intros i Hi. simpl Z.of_nat in Hi.
    rewrite <- !Z.add_assoc. apply Tail. lia. }
  split.
  { replace (load 4 (mem_created true (st_mem s) fp node
                       (frameSize_of numSlots) total ra ro)
                    (res + offsetof_m_numArgsAndFlags))
      with (load 4 (st_mem s) (fp + offsetof_m_numArgsAndFlags)).
    - apply (ck_resumed _ _ _ _ _ _ CK).
    - symmetry. apply load_shift. intros i Hi. simpl Z.of_nat in Hi.
      rewrite <- !Z.add_assoc. apply Tail. lia. }
  split; [intros i Hi; apply Below; unfold res; lia |].
  split.
  { apply load_ext. intros x Hx. simpl Z.of_nat in Hx.
    apply Below. unfold res. lia. }
  split.
  { apply load_ext. intros x Hx. simpl Z.of_nat in Hx.
    apply Below. unfold res. lia. }
  split; [intros x Hx; apply Below; unfold res in *; lia |].
  unfold log_created, hands_off. cbn [negb andb]. reflexivity.
Qed.

(** C6. On a fresh suspend the caller's record and the [frameSize] bytes
    of locals below it are copied into the block, and the resumed flag
    is then set in the copy: outside the flag word the copy equals the
    source byte for byte, and the flag word is the source's with the
    resumed bit set and every other bit as it was. *)
Theorem Create_fresh_copies_frame
    objSize mayUseVV fp numSlots ra ro s f node :
  layout_ok ->
  Create_checks false mayUseVV fp ro s f ->
  Create_sizes objSize numSlots ->
  let total := totalSize_of objSize numSlots in
  objMalloc_pick (st_log s) total = Some node ->
  Create_fresh fp node numSlots total ->
  exists h s',
    Create false objSize mayUseVV fp numSlots ra ro s = Done h s' /\
    let ar := actRec (FromObj h) in
    let m := st_mem s in
    let m' := st_mem s' in
    let flags := offsetof_m_numArgsAndFlags in
    frameSize_of numSlots = numSlots * sizeof_TypedValue /\
    (forall i, - (numSlots * sizeof_TypedValue) <= i < sizeof_ActRec ->
       ~ (flags <= i < flags + 4) -> m' (ar + i) = m (fp + i)) /\
    load 4 m' (ar + flags) =
      Z.lor (load 4 m (fp + flags)) (Z.shiftl 1 kResumedShift) /\
    Z.testbit (load 4 m' (ar + flags)) kResumedShift = true /\
    (forall j, j <> kResumedShift ->
       Z.testbit (load 4 m' (ar + flags)) j =
       Z.testbit (load 4 m (fp + flags)) j).
Proof.
  intros LO CK SZ total Hm FR.
  destruct (block_arith fp node numSlots objSize LO SZ FR)
    as (Hfs & Ht & ? & ? & ? & H0 & ? & ? & ? & ? & [? ?] & ?).
  assert (LO' := LO). destruct LO' as [? [? ?] ? ? ? ? [? ?] [? ?] ? ? ? [? [? ?]]].
  eexists. eexists.
  rewrite (Create_run _ _ _ _ _ _ _ _ _ _ CK Hm). cbv zeta. fold total.
  split; [reflexivity |].
  cbn [st_mem st_log]. rewrite FromObj_handle. unfold actRec.
  rewrite H0, Z.add_0_r.
  set (res := node + sizeof_ResumableNode + frameSize_of numSlots).
  assert (Flags :
    load 4 (mem_created false (st_mem s) fp node (frameSize_of numSlots)
              total ra ro) (res + offsetof_m_numArgsAndFlags) =
    Z.lor (load 4 (st_mem s) (fp + offsetof_m_numArgsAndFlags))
          (Z.shiftl 1 kResumedShift)).
  { rewrite <- (mem_copied_fresh_flags (st_mem s) fp node numSlots objSize
                  LO SZ FR).
    apply load_ext. intros x Hx. simpl Z.of_nat in Hx. unfold total.
    apply (mem_created_below_header _ fp node numSlots objSize LO SZ FR).
    fold res. lia. }
  split; [exact Hfs |].
  split.
  { intros i Hi Hfl. unfold total.
    rewrite (mem_created_below_header _ fp node numSlots objSize LO SZ FR)
      by (fold res; lia).
    replace (res + i)
      with (node + sizeof_ResumableNode + (frameSize_of numSlots + i))
      by (unfold res; lia).
    rewrite (mem_copied_fresh_in _ fp node numSlots objSize LO SZ FR) by lia.
    f_equal. lia. }
  split; [exact Flags |].
  split; [rewrite Flags; apply testbit_lor_bit; lia |].
  intros j Hj. rewrite Flags, Z.lor_spec.
  destruct (Z_lt_le_dec j 0) as [Hneg | Hpos].
  - rewrite !Z.testbit_neg_r by lia. reflexivity.
  - rewrite Z.shiftl_spec by lia.
    destruct (Z_lt_le_dec j kResumedShift) as [Hlt | Hge].
    + rewrite (Z.testbit_neg_r 1) by lia. apply orb_false_r.
    + replace (Z.testbit 1 (j - kResumedShift)) with false;
        [apply orb_false_r |].
      symmetry. apply (Z.bits_above_log2 1); simpl; lia.
Qed.

(** C7. [VarEnv::suspend] is called once by a [Create] that is not a
    clone, for a function that may use a variable environment, from a
    caller frame that has one; it is called with the caller frame and
    the new record.  In every other case, and always in clone mode, it
    is not called. *)
Theorem Create_suspends_VarEnv_once
    clone objSize mayUseVV fp numSlots ra ro s f node :
  layout_ok ->
  Create_checks clone mayUseVV fp ro s f ->
  Create_sizes objSize numSlots ->
  let total := totalSize_of objSize numSlots in
  objMalloc_pick (st_log s) total = Some node ->
  Create_fresh fp node numSlots total ->
  exists h s' rest,
    Create clone objSize mayUseVV fp numSlots ra ro s = Done h s' /\
    st_log s' = st_log s ++ EvMalloc total node :: rest /\
    let varEnv := load 8 (st_mem s) (fp + offsetof_m_varEnv) in
    let handed := negb clone && Func_mayUseVV f && negb (varEnv =? 0) in
    rest = (if handed then [EvSuspend varEnv fp (actRec (FromObj h))]
            else []) /\
    count_suspend (st_log s') =
      (count_suspend (st_log s) + if handed then 1 else 0)%nat /\
    (clone = true -> handed = false).
Proof.
  intros LO CK SZ total Hm FR.
  destruct (hands_off_spec clone mayUseVV fp numSlots objSize ro s f node
              LO CK SZ FR) as [Hve Hh].
  eexists. eexists. eexists.
  rewrite (Create_run _ _ _ _ _ _ _ _ _ _ CK Hm). cbv zeta. fold total.
  split; [reflexivity |].
  cbn [st_log]. unfold log_created. rewrite Hh, Hve.
  split; [reflexivity |].
  rewrite FromObj_handle. unfold actRec.
  split; [reflexivity |].
  split.
  - rewrite count_suspend_app. cbn [count_suspend].
    destruct (negb clone && Func_mayUseVV f &&
              negb (load 8 (st_mem s) (fp + offsetof_m_varEnv) =? 0));
      reflexivity.
  - intros ->. reflexivity.
Qed.

End CreateClaims.

(** ** The claims on the example machine *)

Lemma example_sizes : @Create_sizes example_layout 40 3.
Proof. constructor; vm_compute; intuition discriminate. Qed.

Lemma example_fresh : @Create_fresh example_layout example_fp 1048576 3 168.
Proof. constructor; vm_compute; intuition discriminate. Qed.

Lemma example_func_ok : func_ok example_func.
Proof. unfold func_ok. cbn. lia. Qed.

(** Three slots and a 40-byte object: 168 bytes at 1048576 are allocated
    and, after the destructor has run, freed. *)
Lemma create_destroy_releases_block_witness :
  exists h s1 s2 rest,
    @Create example_layout example_env false 40 true example_fp 3 4198400 12
      (example_state false 0) = Done h s1 /\
    st_log s1 = [] ++ EvMalloc 168 1048576 :: rest /\
    (forall sz p, ~ In (EvMalloc sz p) rest) /\
    (forall p sz, ~ In (EvFree p sz) rest) /\
    @destroy example_layout example_T h s1 = Done tt s2 /\
    st_log s2 = st_log s1 ++ [EvDtor h; EvFree 1048576 168].
Proof.
  exact (@create_destroy_releases_block example_layout example_env
           example_T false true example_fp 3 4198400 12
           (example_state false 0) example_func 1048576
           example_layout_ok (example_checks false 12 0 ltac:(lia))
           example_sizes example_func_ok
           ltac:(vm_compute; reflexivity) eq_refl).
Defined.

(** Address 4198400 and offset 12 are read back; so is the size, 168. *)
Lemma Create_header_decodes_witness :
  exists h s',
    @Create example_layout example_env false 40 true example_fp 3 4198400 12
      (example_state false 0) = Done h s' /\
    @resumeAddr example_layout (@FromObj example_layout h) s'
      = Done 4198400 s' /\
    @resumeOffset example_layout example_env (@FromObj example_layout h) s'
      = Done 12 s' /\
    @size example_layout (@FromObj example_layout h) s' = Done 168 s'.
Proof.
  destruct (@Create_header_decodes example_layout example_env
              false 40 true example_fp 3 4198400 12
              (example_state false 0) example_func 1048576
              example_layout_ok (example_checks false 12 0 ltac:(lia))
              example_sizes example_func_ok
              ltac:(unfold is_u64; lia) eq_refl example_fresh)
    as (h & s' & Hc & Ha & Ho & _ & Hs).
  exists h, s'. repeat split; try assumption.
  apply Hs. vm_compute. reflexivity.
Defined.

Lemma high_checks :
  @Create_checks example_layout example_env false true high_fp 12
    high_state example_func.
Proof.
  constructor.
  - discriminate.
  - vm_compute. reflexivity.
  - vm_compute. discriminate.
  - vm_compute. reflexivity.
  - reflexivity.
  - reflexivity.
  - intros _. reflexivity.
Qed.

Lemma high_sizes : @Create_sizes example_layout 40 (2 ^ 27).
Proof. constructor; vm_compute; intuition discriminate. Qed.

Lemma high_fresh :
  @Create_fresh example_layout high_fp 1048576 (2 ^ 27) 2147483768.
Proof. constructor; vm_compute; intuition discriminate. Qed.

(** A frame of 2^27 slots makes a total of 2147483768 bytes, offset 12
    within the bounds 0-100: address and offset are read back, but the
    size field holds a negative number and [size()] is not the total
    that was allocated. *)
Lemma Create_header_size_counterexample :
  exists h s',
    @Create example_layout example_env false 40 true high_fp (2 ^ 27)
      4198400 12 high_state = Done h s' /\
    st_log s' = [EvMalloc 2147483768 1048576] /\
    @resumeAddr example_layout (@FromObj example_layout h) s'
      = Done 4198400 s' /\
    @resumeOffset example_layout example_env (@FromObj example_layout h) s'
      = Done 12 s' /\
    @m_size example_layout (@FromObj example_layout h) s'
      = Done (-2147483528) s' /\
    @size example_layout (@FromObj example_layout h) s'
      = Done 18446744071562068088 s' /\
    @size example_layout (@FromObj example_layout h) s'
      <> Done 2147483768 s'.
Proof.
  destruct (@Create_header_reads example_layout example_env
              false 40 true high_fp (2 ^ 27) 4198400 12 high_state
              example_func 1048576 example_layout_ok high_checks high_sizes
              example_func_ok ltac:(unfold is_u64; lia) eq_refl high_fresh)
    as (h & s' & Hc & Hl & Ha & Ho & Hm & Hs).
  assert (Ht : @totalSize_of example_layout 40 (2 ^ 27) = 2147483768)
    by (vm_compute; reflexivity).
  rewrite Ht in Hl, Hm, Hs.
  exists h, s'.
  split; [exact Hc |].
  split.
  { destruct (@hands_off_spec example_layout example_env false true high_fp
                (2 ^ 27) 40 12 high_state example_func 1048576
                example_layout_ok high_checks high_sizes high_fresh)
      as [_ Hh].
    rewrite Hl. unfold log_created. rewrite Hh. reflexivity. }
  split; [exact Ha |]. split; [exact Ho |].
  split; [exact Hm |]. split; [exact Hs |].
  rewrite Hs. intros H. inversion H.
Qed.

(** A total of 168 bytes is read back as it is; the total 2147483768 of
    a frame of 2^27 slots is read back negative, and destruction then
    frees 18446744071562068088 bytes from the wrapped address
    4296015872. *)
Lemma Create_size_field_is_int32_witness :
  (exists h s',
     @Create example_layout example_env false 40 true example_fp 3 4198400 12
       (example_state false 0) = Done h s' /\
     @m_size example_layout (@FromObj example_layout h) s' = Done 168 s' /\
     @size example_layout (@FromObj example_layout h) s' = Done 168 s') /\
  (exists h s' s2,
     @Create example_layout example_env false 40 true high_fp (2 ^ 27)
       4198400 12 high_state = Done h s' /\
     @m_size example_layout (@FromObj example_layout h) s'
       = Done (-2147483528) s' /\
     @size example_layout (@FromObj example_layout h) s'
       = Done 18446744071562068088 s' /\
     @destroy example_layout example_T h s' = Done tt s2 /\
     st_log s2 = st_log s' ++
       [EvDtor h; EvFree 4296015872 18446744071562068088]).
Proof.
  split.
  - destruct (@Create_size_field_is_int32 example_layout example_env
                false 40 true example_fp 3 4198400 12
                (example_state false 0) example_func 1048576
                (example_checks false 12 0 ltac:(lia)) example_func_ok eq_refl)
      as (h & s' & Hc & Hm & Hs & _).
    exists h, s'. split; [exact Hc |]. split; [exact Hm | exact Hs].
  - destruct (@Create_size_field_is_int32 example_layout example_env
                false 40 true high_fp (2 ^ 27) 4198400 12
                high_state example_func 1048576
                high_checks example_func_ok eq_refl)
      as (h & s' & Hc & Hm & Hs & _ & _ & _ & Hd).
    destruct (Hd example_T) as (s2 & D1 & D2).
    assert (Hh : h = 1048576 + 16 + 2 ^ 31 + 64).
    { rewrite (@Create_run example_layout example_env false 40 true high_fp
                 (2 ^ 27) 4198400 12 high_state example_func 1048576
                 high_checks eq_refl) in Hc.
      injection Hc as Hh _. rewrite <- Hh. vm_compute. reflexivity. }
    exists h, s', s2.
    split; [exact Hc |]. split; [exact Hm |]. split; [exact Hs |].
    split; [exact D1 |].
    rewrite D2, Hh. reflexivity.
Defined.

(** Cloning the suspended example frame. *)
Lemma Create_clone_copies_from_m_func_witness :
  exists h s',
    @Create example_layout example_env true 40 true example_fp 3 4198400 12
      (example_state true 0) = Done h s' /\
    load 8 (st_mem s') (@FromObj example_layout h + 16) = 20480 /\
    st_log s' = [EvMalloc 168 1048576].
Proof.
  destruct (@Create_clone_copies_from_m_func example_layout example_env
              40 true example_fp 3 4198400 12
              (example_state true 0) example_func 1048576
              example_layout_ok (example_checks true 12 0 ltac:(lia))
              example_sizes eq_refl example_fresh)
    as (h & s' & Hc & _ & Hf & _ & _ & _ & _ & _ & Hl).
  exists h, s'. split; [exact Hc |]. split; [| exact Hl].
  etransitivity; [| etransitivity; [exact Hf |]].
  - unfold actRec. rewrite (@arOff_zero example_layout), Z.add_0_r. reflexivity.
  - vm_compute. reflexivity.
Defined.

(** Suspending the running example frame. *)
Lemma Create_fresh_copies_frame_witness :
  exists h s',
    @Create example_layout example_env false 40 true example_fp 3 4198400 12
      (example_state false 0) = Done h s' /\
    load 4 (st_mem s') (@actRec example_layout (@FromObj example_layout h) + 28)
      = 2 ^ 30 + 2.
Proof.
  destruct (@Create_fresh_copies_frame example_layout example_env
              40 true example_fp 3 4198400 12
              (example_state false 0) example_func 1048576
              example_layout_ok (example_checks false 12 0 ltac:(lia))
              example_sizes eq_refl example_fresh)
    as (h & s' & Hc & _ & _ & Hf & _).
  exists h, s'. split; [exact Hc |].
  etransitivity; [exact Hf |]. vm_compute. reflexivity.
Defined.

(** The example function may use a variable environment; a caller frame
    with one at 24576 hands it over once, a clone does not. *)
Lemma Create_suspends_VarEnv_once_witness :
  (exists h s',
     @Create example_layout example_env false 40 true example_fp 3 4198400 12
       (example_state false 24576) = Done h s' /\
     st_log s' =
       [EvMalloc 168 1048576;
        EvSuspend 24576 example_fp (@actRec example_layout (@FromObj example_layout h))] /\
     count_suspend (st_log s') = 1%nat).
Proof.
  destruct (@Create_suspends_VarEnv_once example_layout example_env
              false 40 true example_fp 3 4198400 12
              (example_state false 24576) example_func 1048576
              example_layout_ok (example_checks false 12 24576 ltac:(lia))
              example_sizes eq_refl example_fresh)
    as (h & s' & rest & Hc & Hl & Hr & Hn & _).
  exists h, s'. split; [exact Hc |]. split.
  - rewrite Hl, Hr. vm_compute. reflexivity.
  - rewrite Hn. vm_compute. reflexivity.
Defined.

(** The scenario of offsets 12 and then 55, on the header that [Create]
    made for the example frame: the size stays 168 and the block is
    freed whole. *)
Lemma setResumeAddr_last_write_wins_witness :
  let s := {| st_mem := @mem_created example_layout false
                          (example_mem false 0) example_fp 1048576 48 168
                          4198400 12;
              st_log := [EvMalloc 168 1048576] |} in
  @Create example_layout example_env false 40 true example_fp 3 4198400 12
    (example_state false 0) = Done (1048640 + 64) s /\
  exists s1 s2,
    @setResumeAddr example_layout example_env 1048640 4198400 12 s = Done tt s1 /\
    @setResumeAddr example_layout example_env 1048640 4198999 55 s1 = Done tt s2 /\
    @resumeOffset example_layout example_env 1048640 s2 = Done 55 s2 /\
    @resumeAddr example_layout 1048640 s2 = Done 4198999 s2 /\
    @size example_layout 1048640 s = Done 168 s /\
    @size example_layout 1048640 s2 = Done 168 s2 /\
    exists s3,
      @destroy example_layout example_T (1048640 + 64) s2 = Done tt s3 /\
      st_log s3 = st_log s ++ [EvDtor (1048640 + 64); EvFree 1048576 168].
Proof.
  intros s.
  assert (Hcr :
    @Create example_layout example_env false 40 true example_fp 3 4198400 12
      (example_state false 0) = Done (1048640 + 64) s).
  { rewrite (@Create_run example_layout example_env false 40 true example_fp
               3 4198400 12 (example_state false 0) example_func 1048576
               (example_checks false 12 0 ltac:(lia)) eq_refl).
    reflexivity. }
  split; [exact Hcr |].
  destruct (@setResumeAddr_last_write_wins example_layout example_env
              1048640 4198400 12 4198999 55 s example_func
              example_layout_ok
              ltac:(vm_compute; reflexivity)
              ltac:(vm_compute; reflexivity)
              ltac:(vm_compute; reflexivity)
              ltac:(unfold is_i32; lia)
              ltac:(unfold is_u64; lia))
    as (s1 & s2 & sz & R1 & R2 & Ro & Ra & S0 & _ & S2 & _ & D & C).
  destruct (C false 40 true example_fp 3 4198400 12 (example_state false 0)
              example_func 1048576
              (example_checks false 12 0 ltac:(lia)) example_func_ok
              eq_refl Hcr) as [_ Hsz].
  assert (Hsz' : sz = 168) by (apply Hsz; vm_compute; reflexivity).
  subst sz.
  exists s1, s2. repeat (split; [assumption |]).
  destruct (D example_T) as (s3 & D1 & D2).
  exists s3. split; [exact D1 | exact D2].
Defined.

(** * Further properties of the unit *)

(** ** Alignment *)

Lemma align_up_divide x a : 0 < a -> (a | align_up x a).
Proof.
  intros Ha. unfold align_up. apply Z.mod_divide; [lia |].
  rewrite Z.add_mod_idemp_r by lia.
  replace (x + - x) with 0 by lia. apply Z.mod_0_l. lia.
Qed.

Lemma align_up_aligned x a : 0 < a -> (a | x) -> align_up x a = x.
Proof.
  intros Ha Hd. unfold align_up.
  assert (Hn : (a | - x)) by (apply Z.divide_opp_r; exact Hd).
  apply Z.mod_divide in Hn; [| lia]. rewrite Hn. lia.
Qed.

Lemma align_up_lt x a : 0 < a -> align_up x a < x + a.
Proof.
  intros Ha. unfold align_up.
  assert (H := Z.mod_pos_bound (- x) a Ha). lia.
Qed.

Lemma u64_divide_16 x : (16 | x) -> (16 | u64 x).
Proof.
  intros Hx. unfold u64, wrap.
  apply Z.mod_divide in Hx; [| lia]. apply Z.mod_divide; [lia |].
  change (2 ^ 64) with (16 * 2 ^ 60).
  rewrite Z.rem_mul_r by lia. rewrite Hx. rewrite Z.add_0_l.
  rewrite Z.mul_comm. apply Z.mod_mul. lia.
Qed.

Section MoreProperties.

Context {L : Layout} {E : Env}.

(** The fields of [struct Resumable] follow one another: with an
    [ActRec] of whole 8-byte words, [resumeAddrOff()] is its size,
    [resumeOffsetOff()] lies 8 bytes further, the size half of the
    packed word 4 bytes after that, and [dataOff()] is the end of the
    packed word rounded up to the 16 bytes of the alignment attribute. *)
Theorem Resumable_field_offsets :
  layout_ok -> (8 | sizeof_ActRec) ->
  resumeAddrOff = sizeof_ActRec /\
  resumeOffsetOff = sizeof_ActRec + 8 /\
  sizeOff = sizeof_ActRec + 12 /\
  (16 | dataOff) /\
  sizeof_ActRec + 16 <= dataOff < sizeof_ActRec + 32.
Proof.
  intros LO H8.
  assert (Ha : resumeAddrOff = sizeof_ActRec).
  { unfold resumeAddrOff, Resumable_offsets, Resumable_fields.
    cbn [field_offsets nth]. rewrite align_up_zero.
    apply align_up_aligned; [lia | exact H8]. }
  assert (Ho : resumeOffsetOff = sizeof_ActRec + 8).
  { unfold resumeOffsetOff, Resumable_offsets, Resumable_fields.
    cbn [field_offsets nth]. rewrite align_up_zero.
    rewrite (align_up_aligned (0 + sizeof_ActRec) 8) by (try lia; exact H8).
    apply align_up_aligned; [lia |].
    apply Z.divide_add_r; [exact H8 | exists 1; reflexivity]. }
  assert (Hmax : Z.max 16 (Z.max alignof_ActRec 8) = 16)
    by (destruct LO; lia).
  unfold sizeOff, dataOff, sizeof_Resumable. rewrite Ho, Hmax.
  assert (G := align_up_ge (sizeof_ActRec + 8 + 8) 16 ltac:(lia)).
  assert (U := align_up_lt (sizeof_ActRec + 8 + 8) 16 ltac:(lia)).
  repeat split; try lia.
  apply align_up_divide. lia.
Qed.

(** [struct Resumable] is a whole number of 16-byte units, and when the
    memory manager returns a 16-byte aligned block and the node and the
    slots are whole 16-byte units too, the header and the handle [Create]
    returns are 16-byte aligned. *)
Theorem Create_handle_is_16_aligned
    clone objSize mayUseVV fp numSlots ra ro s f node :
  layout_ok ->
  Create_checks clone mayUseVV fp ro s f ->
  objMalloc_pick (st_log s) (totalSize_of objSize numSlots) = Some node ->
  (16 | node) -> (16 | sizeof_ResumableNode) -> (16 | sizeof_TypedValue) ->
  (16 | sizeof_Resumable) /\
  exists h s',
    Create clone objSize mayUseVV fp numSlots ra ro s = Done h s' /\
    (16 | FromObj h) /\ (16 | h).
Proof.
  intros LO CK Hm Hn Hnode Hslot.
  assert (Hmax : Z.max 16 (Z.max alignof_ActRec 8) = 16)
    by (destruct LO; lia).
  assert (HR : (16 | sizeof_Resumable)).
  { unfold sizeof_Resumable. rewrite Hmax. apply align_up_divide. lia. }
  split; [exact HR |].
  assert (HF : (16 | frameSize_of numSlots)).
  { unfold frameSize_of. apply u64_divide_16. apply Z.divide_mul_r. exact Hslot. }
  eexists. eexists.
  rewrite (Create_run _ _ _ _ _ _ _ _ _ _ CK Hm). cbv zeta.
  split; [reflexivity |].
  rewrite FromObj_handle.
  assert (H1 : (16 | node + sizeof_ResumableNode + frameSize_of numSlots)).
  { repeat apply Z.divide_add_r; assumption. }
  split; [exact H1 | apply Z.divide_add_r; assumption].
Qed.

(** ** What [Create] refuses *)

(** [Create] checks its arguments in the order of the source and aborts
    at the first check that fails: a null frame, a frame whose resumed
    flag differs from [clone], a null or dangling function, a function
    that is not resumable, and a resume offset outside the function's
    bytecode.  On the fresh path a function that may use a variable
    environment is refused when the caller instantiated [Create] with
    [mayUseVV = false]. *)
Theorem Create_rejects clone objSize mayUseVV numSlots ra ro fp s :
  let resumed := Z.testbit (load 4 (st_mem s) (fp + offsetof_m_numArgsAndFlags))
                           kResumedShift in
  let func := load 8 (st_mem s) (fp + offsetof_m_func) in
  let run := Create clone objSize mayUseVV fp numSlots ra ro s in
  (fp = 0 -> run = Abort (AssertionFailed A_fp)) /\
  (fp <> 0 -> resumed <> clone ->
   run = Abort (AssertionFailed A_resumed_eq_clone)) /\
  (fp <> 0 -> resumed = clone -> func = 0 ->
   run = Abort (AssertionFailed A_func)) /\
  (fp <> 0 -> resumed = clone -> func <> 0 -> funcs func = None ->
   run = Abort BadFuncPointer) /\
  (forall f, fp <> 0 -> resumed = clone -> func <> 0 -> funcs func = Some f ->
   isResumable f = false ->
   run = Abort (AssertionFailed A_isResumable)) /\
  (forall f, fp <> 0 -> resumed = clone -> func <> 0 -> funcs func = Some f ->
   isResumable f = true -> contains f ro = false ->
   run = Abort (AssertionFailed A_contains)) /\
  (forall f node, fp <> 0 -> resumed = clone -> func <> 0 ->
   funcs func = Some f -> isResumable f = true -> contains f ro = true ->
   objMalloc_pick (st_log s) (totalSize_of objSize numSlots) = Some node ->
   clone = false -> mayUseVV = false -> Func_mayUseVV f = true ->
   run = Abort (AssertionFailed A_mayUseVV)).
Proof.
  intros resumed func run. unfold run, Create.
  split.
  { intros ->. apply bind_assert_false. reflexivity. }
  assert (P1 : forall B (k : unit -> M B),
    fp <> 0 -> bind (assert A_fp (negb (fp =? 0))) k s = k tt s).
  { intros B k Hfp. apply bind_assert.
    apply Z.eqb_neq in Hfp. rewrite Hfp. reflexivity. }
  split.
  { intros Hfp Hne. rewrite P1 by exact Hfp.
    unfold ActRec_resumed. steps. fold resumed.
    apply bind_assert_false. apply eqb_false_iff. exact Hne. }
  assert (P2 : forall B (k : unit -> M B),
    resumed = clone ->
    bind (assert A_resumed_eq_clone (Bool.eqb resumed clone)) k s = k tt s).
  { intros B k Hr. apply bind_assert. rewrite Hr. apply eqb_reflx. }
  split.
  { intros Hfp Hr H0. rewrite P1 by exact Hfp.
    unfold ActRec_resumed, ActRec_func. steps. fold resumed.
    rewrite P2 by exact Hr. steps. fold func.
    apply bind_assert_false. rewrite H0. reflexivity. }
  assert (P3 : forall B (k : unit -> M B),
    func <> 0 -> bind (assert A_func (negb (func =? 0))) k s = k tt s).
  { intros B k Hf. apply bind_assert.
    apply Z.eqb_neq in Hf. rewrite Hf. reflexivity. }
  split.
  { intros Hfp Hr Hf Hnone. rewrite P1 by exact Hfp.
    unfold ActRec_resumed, ActRec_func. steps. fold resumed.
    rewrite P2 by exact Hr. steps. fold func.
    rewrite P3 by exact Hf.
    apply bind_Abort. unfold Func_deref. rewrite Hnone. reflexivity. }
  split.
  { intros f Hfp Hr Hf Hsome Hres. rewrite P1 by exact Hfp.
    unfold ActRec_resumed, ActRec_func. steps. fold resumed.
    rewrite P2 by exact Hr. steps. fold func.
    rewrite P3 by exact Hf.
    rewrite (bind_Done _ _ _ _ _ (Func_deref_Some _ _ _ Hsome)).
    apply bind_assert_false. exact Hres. }
  split.
  { intros f Hfp Hr Hf Hsome Hres Hc. rewrite P1 by exact Hfp.
    unfold ActRec_resumed, ActRec_func. steps. fold resumed.
    rewrite P2 by exact Hr. steps. fold func.
    rewrite P3 by exact Hf.
    rewrite (bind_Done _ _ _ _ _ (Func_deref_Some _ _ _ Hsome)).
    rewrite bind_assert by exact Hres.
    apply bind_assert_false. exact Hc. }
  intros f node Hfp Hr Hf Hsome Hres Hc Hm -> -> Hvv.
  rewrite P1 by exact Hfp.
  unfold ActRec_resumed, ActRec_func. steps. fold resumed.
  rewrite P2 by exact Hr. steps. fold func.
  rewrite P3 by exact Hf.
  rewrite (bind_Done _ _ _ _ _ (Func_deref_Some _ _ _ Hsome)).
  rewrite bind_assert by exact Hres.
  rewrite bind_assert by exact Hc.
  rewrite (bind_Done _ _ _ _ _ (MM_objMalloc_Some _ _ _ Hm)).
  steps. cbn [negb]. unfold ActRec_setResumed. steps.
  apply bind_assert_false.
  rewrite Hvv. reflexivity.
Qed.

End MoreProperties.

(** ** Where [Create] writes *)

Lemma sizes_arith `{Layout} numSlots objSize :
  layout_ok -> Create_sizes objSize numSlots ->
  let frameSize := frameSize_of numSlots in
  let totalSize := totalSize_of objSize numSlots in
  frameSize = numSlots * sizeof_TypedValue /\
  totalSize = sizeof_ResumableNode + frameSize + sizeof_Resumable + objSize /\
  0 <= frameSize /\ 0 <= objSize /\ totalSize < 2 ^ 64 /\
  arOff = 0 /\ sizeof_ActRec <= resumeAddrOff /\
  resumeAddrOff + 8 <= resumeOffsetOff /\
  resumeOffsetOff + 8 <= sizeof_Resumable.
Proof.
  intros LO SZ frameSize totalSize.
  assert (Hf : frameSize = numSlots * sizeof_TypedValue)
    by (apply (frameSize_of_exact objSize); assumption).
  assert (Ht := totalSize_of_exact objSize numSlots LO SZ).
  fold totalSize in Ht.
  assert (Hp : 0 <= numSlots * sizeof_TypedValue)
    by (destruct LO, SZ; apply Z.mul_nonneg_nonneg; lia).
  assert (H0 := arOff_zero). assert (H1 := resumeAddrOff_ge).
  assert (H2 := resumeOffsetOff_ge). assert (H3 := sizeof_Resumable_ge).
  destruct SZ.
  repeat split; lia.
Qed.

Section CreateFootprint.

Context {L : Layout} {E : Env}.

Variables (m : mem) (fp node numSlots objSize : Z).

Hypothesis LO : layout_ok.
Hypothesis SZ : Create_sizes objSize numSlots.

Let frameSize := frameSize_of numSlots.
Let totalSize := totalSize_of objSize numSlots.
Let frame := node + sizeof_ResumableNode.
Let resumable := frame + frameSize.

Ltac sizes :=
  let H := fresh "SA" in
  pose proof (sizes_arith numSlots objSize LO SZ) as H;
  cbv zeta in H; fold frameSize totalSize in H;
  destruct H as (? & ? & ? & ? & ? & ? & ? & ? & ?);
  destruct LO as [? [? ?] ? ? ? ? [? ?] [? ?] ? ? ? [? [? ?]]].

(** After the node is written, [Create] writes only from [frame] up to
    the end of the header. *)
Lemma mem_created_outside_body clone ra ro x :
  ~ (frame <= x < resumable + sizeof_Resumable) ->
  mem_created clone m fp node frameSize totalSize ra ro x =
  mem_node m node frameSize x.
Proof.
  intros Hx. unfold mem_created, mem_copied.
  fold frame. fold resumable. sizes.
  rewrite !store_out by (simpl Z.of_nat; lia).
  destruct clone.
  - apply copy_out.
    rewrite u64_id by (unfold is_u64; lia). rewrite Z2Nat.id by lia. lia.
  - rewrite store_out by (simpl Z.of_nat; lia).
    apply copy_out.
    rewrite u64_id by (unfold is_u64; lia). rewrite Z2Nat.id by lia.
    unfold resumable in Hx. lia.
Qed.


End CreateFootprint.

Section CreateProperties.

Context {L : Layout} {E : Env}.


(** [Create] fills in the node in front of the locals: its [framesize]
    reads back as the byte length of the locals region (as far as the
    field is wide) and its [hdr.kind] as [HeaderKind::ResumableFrame],
    the kind byte lying outside the [framesize] field. *)
Theorem Create_writes_frame_node
    clone objSize mayUseVV fp numSlots ra ro s f node :
  layout_ok ->
  Create_checks clone mayUseVV fp ro s f ->
  Create_sizes objSize numSlots ->
  objMalloc_pick (st_log s) (totalSize_of objSize numSlots) = Some node ->
  (offsetof_hdr_kind < offsetof_framesize \/
   offsetof_framesize + Z.of_nat width_framesize <= offsetof_hdr_kind) ->
  exists h s',
    Create clone objSize mayUseVV fp numSlots ra ro s = Done h s' /\
    load width_framesize (st_mem s') (node + offsetof_framesize) =
      (numSlots * sizeof_TypedValue) mod 256 ^ Z.of_nat width_framesize /\
    load 1 (st_mem s') (node + offsetof_hdr_kind) =
      HeaderKind_ResumableFrame mod 256.
Proof.
  intros LO CK SZ Hm Hk.
  destruct (sizes_arith numSlots objSize LO SZ)
    as (Hfs & Ht & ? & ? & ? & ? & ? & ? & ?).
  assert (LO' := LO). destruct LO' as [? [? ?] ? ? ? ? [? ?] [? ?] ? ? ? [? [? ?]]].
  eexists. eexists.
  rewrite (Create_run _ _ _ _ _ _ _ _ _ _ CK Hm). cbv zeta.
  split; [reflexivity |]. cbn [st_mem].
  split.
  - rewrite (load_ext _ _ (mem_node (st_mem s) node (frameSize_of numSlots))).
    + unfold mem_node.
      rewrite load_store_other by (simpl Z.of_nat; lia).
      rewrite load_store, Hfs. reflexivity.
    + intros x Hx.
      apply (mem_created_outside_body _ fp node numSlots objSize LO SZ). lia.
  - rewrite (load_ext _ _ (mem_node (st_mem s) node (frameSize_of numSlots))).
    + unfold mem_node. rewrite load_store. reflexivity.
    + intros x Hx. simpl Z.of_nat in Hx.
      apply (mem_created_outside_body _ fp node numSlots objSize LO SZ). lia.
Qed.

(** [Destroy] makes no check of the size it is given: for every [size]
    it runs the destructor and frees [size] bytes from the end of the
    trailing object less [size], computed in 64-bit pointer arithmetic.
    On a handle of [Create] that base is the pointer the memory manager
    returned exactly when [size] is the total [Create] asked for. *)
Theorem Destroy_trusts_size
    T clone mayUseVV fp numSlots ra ro s f node size :
  layout_ok ->
  Create_checks clone mayUseVV fp ro s f ->
  Create_sizes (sizeof_T T) numSlots ->
  let total := totalSize_of (sizeof_T T) numSlots in
  objMalloc_pick (st_log s) total = Some node ->
  is_u64 size ->
  exists h s1 s2 base,
    Create clone (sizeof_T T) mayUseVV fp numSlots ra ro s = Done h s1 /\
    Destroy T size h s1 = Done tt s2 /\
    st_log s2 = st_log s1 ++ [EvDtor h; EvFree base size] /\
    st_mem s2 = dtor_T T h (st_mem s1) /\
    base = u64 (node + total - size) /\
    (base = node <-> size = total).
Proof.
  intros LO CK SZ total Hm Hsize.
  destruct (sizes_arith numSlots (sizeof_T T) LO SZ)
    as (Hfs & Ht & ? & ? & ? & ? & ? & ? & ?).
  assert (Hn := objMalloc_ptr _ _ _ Hm). unfold is_u64 in Hn, Hsize.
  assert (Hrange : 0 <= total < 2 ^ 64).
  { unfold total, totalSize_of. apply u64_range. }
  eexists. eexists. eexists. eexists.
  rewrite (Create_run _ _ _ _ _ _ _ _ _ _ CK Hm). cbv zeta.
  split; [reflexivity |].
  unfold Destroy, run_dtor, MM_objFree. steps.
  unfold bind, emit. cbn [st_mem st_log].
  split; [reflexivity |]. cbn [st_mem st_log].
  split; [rewrite <- app_assoc; reflexivity |].
  split; [reflexivity |].
  replace (node + sizeof_ResumableNode + frameSize_of numSlots
           + sizeof_Resumable + sizeof_T T - size)
    with (node + total - size) by (unfold total; lia).
  split; [reflexivity |].
  unfold u64, wrap.
  split.
  - intros Hb.
    assert (Hq := Z.div_mod (node + total - size) (2 ^ 64) ltac:(lia)).
    rewrite Hb in Hq.
    assert (Hz : (node + total - size) / 2 ^ 64 = 0) by lia.
    lia.
  - intros ->. replace (node + total - total) with node by lia.
    apply Z.mod_small. lia.
Qed.

(** [setResumeAddr] stores the address and the 32-bit offset and nothing
    else: every byte outside those two fields, so the record, the
    locals, the size half of the packed word and the trailing object,
    and the log are as before. *)
Theorem setResumeAddr_footprint this a o s f :
  funcs (load 8 (st_mem s) (actRec this + offsetof_m_func)) = Some f ->
  contains f o = true ->
  exists s',
    setResumeAddr this a o s = Done tt s' /\
    st_log s' = st_log s /\
    forall x,
      ~ (this + resumeAddrOff <= x < this + resumeAddrOff + 8) ->
      ~ (this + resumeOffsetOff <= x < this + resumeOffsetOff + 4) ->
      st_mem s' x = st_mem s x.
Proof.
  intros HF Hc. exists (redirected this s a o).
  rewrite (setResumeAddr_run this s f HF), Hc.
  split; [reflexivity |]. split; [reflexivity |].
  intros x H1 H2. unfold redirected. cbn [st_mem].
  rewrite !store_out by (simpl Z.of_nat; lia). reflexivity.
Qed.

(** The whole life of a frame: [Create], a later [setResumeAddr] to
    another point of the function, and the destruction of the handle.
    The new point is read back, and the block freed is the block
    allocated, with the total [Create] asked for. *)
Theorem Create_redirect_destroy
    T clone mayUseVV fp numSlots ra ro s f node a2 o2 :
  layout_ok ->
  Create_checks clone mayUseVV fp ro s f ->
  Create_sizes (sizeof_T T) numSlots ->
  func_ok f ->
  let total := totalSize_of (sizeof_T T) numSlots in
  total < 2 ^ 31 ->
  objMalloc_pick (st_log s) total = Some node ->
  Create_fresh fp node numSlots total ->
  contains f o2 = true -> is_u64 a2 ->
  exists h s1 s2 s3,
    Create clone (sizeof_T T) mayUseVV fp numSlots ra ro s = Done h s1 /\
    setResumeAddr (FromObj h) a2 o2 s1 = Done tt s2 /\
    resumeAddr (FromObj h) s2 = Done a2 s2 /\
    resumeOffset (FromObj h) s2 = Done o2 s2 /\
    destroy T h s2 = Done tt s3 /\
    st_log s3 = st_log s1 ++ [EvDtor h; EvFree node total].
Proof.
  intros LO CK SZ FO total Hfit Hm FR Hc2 Ha2.
  assert (Hro := contains_range f ro FO (ck_contains _ _ _ _ _ _ CK)).
  assert (Ho2 := contains_range f o2 FO Hc2).
  assert (Ht := totalSize_of_exact _ _ LO SZ). fold total in Ht.
  assert (Hpos : 0 <= total).
  { unfold total, totalSize_of. apply u64_range. }
  set (res := node + sizeof_ResumableNode + frameSize_of numSlots).
  set (s1 := {| st_mem := mem_created clone (st_mem s) fp node
                            (frameSize_of numSlots) total ra ro;
                st_log := log_created clone mayUseVV f s fp node
                            (frameSize_of numSlots) total |}).
  assert (HF1 : funcs (load 8 (st_mem s1) (actRec res + offsetof_m_func))
                = Some f).
  { unfold s1, res, actRec. cbn [st_mem].
    rewrite arOff_zero, Z.add_0_r. unfold total.
    rewrite created_func by assumption. apply (ck_func _ _ _ _ _ _ CK). }
  set (s2 := redirected res s1 a2 o2).
  assert (HF2 : funcs (load 8 (st_mem s2) (actRec res + offsetof_m_func))
                = Some f).
  { unfold s2. rewrite redirected_func by exact LO. exact HF1. }
  assert (Hsz : load 4 (st_mem s2) (res + sizeOff) = total mod 2 ^ 32).
  { unfold s2. rewrite redirected_size. unfold s1, res. cbn [st_mem].
    apply created_size_field. lia. }
  exists (res + sizeof_Resumable), s1, s2.
  eexists.
  split; [apply (Create_run _ _ _ _ _ _ _ _ _ _ CK Hm) |].
  assert (HFO : FromObj (res + sizeof_Resumable) = res)
    by (unfold FromObj; lia).
  rewrite !HFO.
  split; [rewrite (setResumeAddr_run res s1 f HF1), Hc2; reflexivity |].
  split.
  { assert (Ha : load 8 (st_mem s2) (res + resumeAddrOff) = a2).
    { unfold s2. rewrite redirected_resumeAddr. apply u64_id. exact Ha2. }
    rewrite resumeAddr_run, Ha. reflexivity. }
  split.
  { assert (Ho : i32 (load 4 (st_mem s2) (res + resumeOffsetOff)) = o2).
    { unfold s2. rewrite redirected_resumeOffset. apply i32_u32.
      unfold is_i32. lia. }
    rewrite (resumeOffset_run res s2 f HF2). cbv zeta.
    rewrite Ho, Hc2. reflexivity. }
  rewrite destroy_run. cbv zeta.
  split; [reflexivity |]. cbn [st_mem st_log].
  rewrite HFO, Hsz, i32_mod, (i32_small total) by lia.
  rewrite (u64_id total) by (unfold is_u64; lia).
  assert (Hfs := frameSize_of_exact _ _ LO SZ).
  replace (res + sizeof_Resumable + sizeof_T T - total) with node
    by (unfold res; lia).
  rewrite (u64_id node) by (apply (objMalloc_ptr _ _ _ Hm)).
  reflexivity.
Qed.

(** A frame that [Create] has suspended is marked resumed: suspending
    its record again is refused by the check of the resumed flag against
    [clone], while a clone of it passes every check and is made as soon
    as the memory manager has a block. *)
Theorem created_frame_clones_only
    objSize mayUseVV fp numSlots ra ro s f node :
  layout_ok ->
  Create_checks false mayUseVV fp ro s f ->
  Create_sizes objSize numSlots ->
  let total := totalSize_of objSize numSlots in
  objMalloc_pick (st_log s) total = Some node ->
  Create_fresh fp node numSlots total ->
  0 < node ->
  exists h s',
    Create false objSize mayUseVV fp numSlots ra ro s = Done h s' /\
    (forall objSize2 mayUseVV2 numSlots2 ra2 ro2,
       Create false objSize2 mayUseVV2 (actRec (FromObj h)) numSlots2 ra2 ro2 s'
       = Abort (AssertionFailed A_resumed_eq_clone)) /\
    (forall objSize2 mayUseVV2 numSlots2 ra2 ro2 node2,
       contains f ro2 = true ->
       objMalloc_pick (st_log s') (totalSize_of objSize2 numSlots2)
         = Some node2 ->
       exists h2 s2,
         Create true objSize2 mayUseVV2 (actRec (FromObj h)) numSlots2 ra2 ro2 s'
         = Done h2 s2 /\
         h2 = node2 + sizeof_ResumableNode + frameSize_of numSlots2
              + sizeof_Resumable).
Proof.
  intros LO CK SZ total Hm FR Hnode.
  destruct (block_arith fp node numSlots objSize LO SZ FR)
    as (Hfs & Ht & ? & ? & ? & H0 & ? & ? & ? & ? & [? ?] & ?).
  assert (LO' := LO). destruct LO' as [? [? ?] ? ? ? ? [? ?] [? ?] ? ? ? [? [? ?]]].
  set (res := node + sizeof_ResumableNode + frameSize_of numSlots).
  set (s1 := {| st_mem := mem_created false (st_mem s) fp node
                            (frameSize_of numSlots) total ra ro;
                st_log := log_created false mayUseVV f s fp node
                            (frameSize_of numSlots) total |}).
  assert (Hres : Z.testbit (load 4 (st_mem s1)
                   (res + offsetof_m_numArgsAndFlags)) kResumedShift = true).
  { unfold s1. cbn [st_mem].
    rewrite (load_ext 4 _ (mem_copied false (st_mem s) fp node
                             (frameSize_of numSlots))).
    - unfold res.
      rewrite (mem_copied_fresh_flags (st_mem s) fp node numSlots objSize
                 LO SZ FR).
      apply testbit_lor_bit. lia.
    - intros x Hx. simpl Z.of_nat in Hx. unfold total.
      apply (mem_created_below_header _ fp node numSlots objSize LO SZ FR).
      fold res. lia. }
  assert (Hfn : load 8 (st_mem s1) (res + offsetof_m_func) =
                load 8 (st_mem s) (fp + offsetof_m_func)).
  { unfold s1, res. cbn [st_mem]. unfold total.
    apply created_func; assumption. }
  assert (Hne : res <> 0) by (unfold res; lia).
  exists (res + sizeof_Resumable), s1.
  split; [apply (Create_run _ _ _ _ _ _ _ _ _ _ CK Hm) |].
  assert (HFO : FromObj (res + sizeof_Resumable) = res)
    by (unfold FromObj; lia).
  rewrite !HFO.
  unfold actRec. rewrite H0, Z.add_0_r.
  split.
  - intros objSize2 mayUseVV2 numSlots2 ra2 ro2.
    unfold Create.
    rewrite bind_assert
      by (apply Z.eqb_neq in Hne; rewrite Hne; reflexivity).
    unfold ActRec_resumed. steps. rewrite Hres.
    apply bind_assert_false. reflexivity.
  - intros objSize2 mayUseVV2 numSlots2 ra2 ro2 node2 Hc2 Hm2.
    eexists. eexists. split; [| reflexivity].
    apply (Create_run true objSize2 mayUseVV2 res numSlots2 ra2 ro2 s1 f node2);
      [| exact Hm2].
    constructor.
    + exact Hne.
    + exact Hres.
    + rewrite Hfn. apply (ck_func_ptr _ _ _ _ _ _ CK).
    + rewrite Hfn. apply (ck_func _ _ _ _ _ _ CK).
    + apply (ck_isResumable _ _ _ _ _ _ CK).
    + exact Hc2.
    + discriminate.
Qed.

End CreateProperties.

(** ** The further properties on the example machine *)

Lemma Resumable_field_offsets_witness :
  @resumeAddrOff example_layout = 48 /\
  @resumeOffsetOff example_layout = 48 + 8 /\
  @sizeOff example_layout = 48 + 12 /\
  (16 | @dataOff example_layout) /\
  48 + 16 <= @dataOff example_layout < 48 + 32.
Proof.
  exact (@Resumable_field_offsets example_layout example_layout_ok
           ltac:(exists 6; reflexivity)).
Defined.

Lemma Create_handle_is_16_aligned_witness :
  (16 | @sizeof_Resumable example_layout) /\
  exists h s',
    @Create example_layout example_env false 40 true example_fp 3 4198400 12
      (example_state false 0) = Done h s' /\
    (16 | @FromObj example_layout h) /\ (16 | h).
Proof.
  exact (@Create_handle_is_16_aligned example_layout example_env
           false 40 true example_fp 3 4198400 12 (example_state false 0)
           example_func 1048576 example_layout_ok
           (example_checks false 12 0 ltac:(lia)) eq_refl
           ltac:(exists 65536; reflexivity)
           ltac:(exists 1; reflexivity)
           ltac:(exists 1; reflexivity)).
Defined.

(** Offset 100 is past the function's last byte, and the running frame
    cannot be cloned. *)
Lemma Create_rejects_witness :
  @Create example_layout example_env false 40 true example_fp 3 4198400 100
    (example_state false 0) = Abort (AssertionFailed A_contains) /\
  @Create example_layout example_env true 40 true example_fp 3 4198400 12
    (example_state false 0) = Abort (AssertionFailed A_resumed_eq_clone).
Proof.
  split.
  - destruct (@Create_rejects example_layout example_env false 40 true 3
                4198400 100 example_fp (example_state false 0))
      as (_ & _ & _ & _ & _ & H & _).
    apply (H example_func).
    + discriminate.
    + vm_compute. reflexivity.
    + vm_compute. discriminate.
    + vm_compute. reflexivity.
    + reflexivity.
    + reflexivity.
  - destruct (@Create_rejects example_layout example_env true 40 true 3
                4198400 12 example_fp (example_state false 0))
      as (_ & H & _).
    apply H.
    + discriminate.
    + vm_compute. discriminate.
Defined.


Lemma Create_writes_frame_node_witness :
  exists h s',
    @Create example_layout example_env false 40 true example_fp 3 4198400 12
      (example_state false 0) = Done h s' /\
    load 4 (st_mem s') (1048576 + 0) = 48 /\
    load 1 (st_mem s') (1048576 + 11) = 2.
Proof.
  exact (@Create_writes_frame_node example_layout example_env
           false 40 true example_fp 3 4198400 12 (example_state false 0)
           example_func 1048576 example_layout_ok
           (example_checks false 12 0 ltac:(lia)) example_sizes eq_refl
           ltac:(right; vm_compute; discriminate)).
Defined.

(** Passing 100 for a block of 168 bytes frees from 68 bytes into it;
    passing the size read from the header of the 2 GiB frame, a negative
    [m_size] converted to [size_t], frees from a wrapped address. *)
Lemma Destroy_trusts_size_witness :
  (exists h s1 s2,
     @Create example_layout example_env false 40 true example_fp 3 4198400 12
       (example_state false 0) = Done h s1 /\
     @Destroy example_T 100 h s1 = Done tt s2 /\
     st_log s2 = st_log s1 ++ [EvDtor h; EvFree (1048576 + 68) 100]) /\
  (exists h s1 s2,
     @Create example_layout example_env false 40 true high_fp (2 ^ 27)
       4198400 12 high_state = Done h s1 /\
     @Destroy example_T 18446744071562068088 h s1 = Done tt s2 /\
     st_log s2 = st_log s1 ++
       [EvDtor h; EvFree 4296015872 18446744071562068088]).
Proof.
  split.
  - destruct (@Destroy_trusts_size example_layout example_env example_T
                false true example_fp 3 4198400 12 (example_state false 0)
                example_func 1048576 100 example_layout_ok
                (example_checks false 12 0 ltac:(lia)) example_sizes eq_refl
                ltac:(unfold is_u64; lia))
      as (h & s1 & s2 & base & Hc & Hd & Hl & _ & Hb & _).
    exists h, s1, s2. split; [exact Hc |]. split; [exact Hd |].
    rewrite Hl, Hb. reflexivity.
  - destruct (@Destroy_trusts_size example_layout example_env example_T
                false true high_fp (2 ^ 27) 4198400 12 high_state
                example_func 1048576 18446744071562068088 example_layout_ok
                high_checks high_sizes eq_refl
                ltac:(unfold is_u64; lia))
      as (h & s1 & s2 & base & Hc & Hd & Hl & _ & Hb & _).
    exists h, s1, s2. split; [exact Hc |]. split; [exact Hd |].
    rewrite Hl, Hb. reflexivity.
Defined.

Lemma setResumeAddr_footprint_witness :
  let s := {| st_mem := store 4 (example_mem true 0) (example_fp + 56) 12;
              st_log := [] |} in
  exists s',
    @setResumeAddr example_layout example_env example_fp 4198999 55 s
      = Done tt s' /\
    st_mem s' (example_fp + 60) = st_mem s (example_fp + 60).
Proof.
  intros s.
  destruct (@setResumeAddr_footprint example_layout example_env
              example_fp 4198999 55 s example_func
              ltac:(vm_compute; reflexivity) ltac:(vm_compute; reflexivity))
    as (s' & Hr & _ & Hm).
  exists s'. split; [exact Hr |].
  apply Hm; vm_compute; intros [H1 H2]; try discriminate;
    apply H1 || apply H2; reflexivity.
Defined.

Lemma Create_redirect_destroy_witness :
  exists h s1 s2 s3,
    @Create example_layout example_env false 40 true example_fp 3 4198400 12
      (example_state false 0) = Done h s1 /\
    @setResumeAddr example_layout example_env (@FromObj example_layout h)
      4198999 55 s1 = Done tt s2 /\
    @resumeAddr example_layout (@FromObj example_layout h) s2
      = Done 4198999 s2 /\
    @resumeOffset example_layout example_env (@FromObj example_layout h) s2
      = Done 55 s2 /\
    @destroy example_layout example_T h s2 = Done tt s3 /\
    st_log s3 = st_log s1 ++ [EvDtor h; EvFree 1048576 168].
Proof.
  exact (@Create_redirect_destroy example_layout example_env example_T
           false true example_fp 3 4198400 12 (example_state false 0)
           example_func 1048576 4198999 55 example_layout_ok
           (example_checks false 12 0 ltac:(lia)) example_sizes
           example_func_ok ltac:(vm_compute; reflexivity) eq_refl
           example_fresh ltac:(vm_compute; reflexivity)
           ltac:(unfold is_u64; lia)).
Defined.

Lemma created_frame_clones_only_witness :
  exists h s',
    @Create example_layout example_env false 40 true example_fp 3 4198400 12
      (example_state false 0) = Done h s' /\
    @Create example_layout example_env false 40 true
      (@actRec example_layout (@FromObj example_layout h)) 3 4198400 12 s'
      = Abort (AssertionFailed A_resumed_eq_clone) /\
    exists h2 s2,
      @Create example_layout example_env true 40 true
        (@actRec example_layout (@FromObj example_layout h)) 3 4198400 12 s'
      = Done h2 s2.
Proof.
  destruct (@created_frame_clones_only example_layout example_env
              40 true example_fp 3 4198400 12 (example_state false 0)
              example_func 1048576 example_layout_ok
              (example_checks false 12 0 ltac:(lia)) example_sizes eq_refl
              example_fresh ltac:(lia))
    as (h & s' & Hc & Hno & Hyes).
  exists h, s'. split; [exact Hc |]. split; [apply Hno |].
  destruct (Hyes 40 true 3 4198400 12 1048576
              ltac:(vm_compute; reflexivity) eq_refl)
    as (h2 & s2 & H2 & _).
  exists h2, s2. exact H2.
Defined.
